(** * Safe Harbor 2025 Tax Shield: the calculation module

    A shallow embedding of [client/src/lib/taxCalculator.ts] and the
    properties its specification states about it, followed by the
    parts of the calculator page, of the summary document and of the
    storage hook that compute something, with properties of their own.

    Number model.  The TypeScript code computes on JavaScript numbers,
    IEEE 754 binary64.  Here a finite number is an exact rational
    ([Q]); the only non-finite value the module itself writes down, the
    [Infinity] upper bound of the last tax bracket, is kept by the type
    [ext].  The properties are stated so that they hold of the rounded
    operations as well: equalities relate a result to the operations
    that compute it, in their order, and the others are comparisons
    with room for rounding.  Where rounding decides, the income tax
    calculator is given a second time on binary64 numbers (module
    [Binary64]) and evaluated there; integers are exact in binary64 up
    to 2^53, and amounts are kept below that bound where it matters. *)

From Stdlib Require Import QArith Qminmax Qabs Lqa.
From Stdlib Require Import ZArith Lia Bool List Sorted.
From Stdlib Require Import Ascii String.
From Stdlib Require Import Qround NArith DecimalN DecimalPos.
From Stdlib Require Floats.
Import ListNotations.

Local Open Scope Q_scope.

(** ** Numbers *)

(** [a < b], [a > b] and [a <= b] of the source, as booleans. *)
Definition Qltb (a b : Q) : bool := negb (Qle_bool b a).
Definition Qgtb (a b : Q) : bool := Qltb b a.
Definition Qleb (a b : Q) : bool := Qle_bool a b.

(** A number that may be [Infinity] (bracket upper bounds and sizes). *)
Inductive ext : Type :=
| Fin (q : Q)
| Infinity.

(** [x - q] and [x + q] for a possibly infinite [x] and a finite [q]. *)
Definition ext_sub (x : ext) (q : Q) : ext :=
  match x with
  | Fin a => Fin (a - q)
  | Infinity => Infinity
  end.

Definition ext_add (x : ext) (q : Q) : ext :=
  match x with
  | Fin a => Fin (a + q)
  | Infinity => Infinity
  end.

(** [Math.min(q, x)] for a finite [q]: the result is finite. *)
Definition ext_min (q : Q) (x : ext) : Q :=
  match x with
  | Fin a => Qmin q a
  | Infinity => q
  end.

(** ** Types *)

Inductive FilingStatus : Type := single | married.

Module Bracket.
Record t : Type := mk { min : Q; max : ext; rate : Q }.
End Bracket.

Record TaxInputs : Type := mkTaxInputs {
  filingStatus : FilingStatus;
  priorYearTax : Q;
  priorYearAGI : Q;
  currentYearProfit : Q
}.

Record SelfEmploymentTaxBreakdown : Type := mkSelfEmploymentTaxBreakdown {
  socialSecurityTax : Q;
  medicareTax : Q;
  additionalMedicareTax : Q;
  totalSETax : Q;
  seTaxDeduction : Q
}.

Record BracketDetail : Type := mkBracketDetail {
  rate : Q;
  taxableAtRate : Q;
  taxAtRate : Q
}.

Record IncomeTaxBreakdown : Type := mkIncomeTaxBreakdown {
  taxableIncome : Q;
  federalIncomeTax : Q;
  bracketDetails : list BracketDetail
}.

Module SafeHarbor.
Record t : Type := mk { safeHarborMinimum : Q; multiplier : Q }.
End SafeHarbor.

Record TaxCalculationResult : Type := mkTaxCalculationResult {
  selfEmploymentTax : SelfEmploymentTaxBreakdown;
  incomeTax : IncomeTaxBreakdown;
  currentYearTotalTax : Q;
  currentYearAvoidanceMinimum : Q;
  safeHarborMultiplier : Q;
  safeHarborMinimum : Q;
  requiredAnnualPayment : Q;
  quarterlyPayment : Q;
  isCurrentYearLower : bool;
  savings : Q
}.

(** ** Constant tables *)

Module TAX_CONSTANTS_2025.
Definition standardDeduction (s : FilingStatus) : Q :=
  match s with single => 15750 | married => 31500 end.
Definition socialSecurityWageBase : Q := 176100.
Definition socialSecurityRate : Q := 0.124.
Definition medicareRate : Q := 0.029.
Definition additionalMedicareRate : Q := 0.009.
Definition additionalMedicareThreshold (s : FilingStatus) : Q :=
  match s with single => 200000 | married => 250000 end.
Definition seTaxDeductionRate : Q := 0.5.
Definition safeHarborHighIncomeThreshold : Q := 150000.
Definition safeHarborHighIncomeMultiplier : Q := 1.1.
Definition safeHarborStandardMultiplier : Q := 1.0.
Definition currentYearAvoidanceMultiplier : Q := 0.9.
End TAX_CONSTANTS_2025.

Definition TAX_BRACKETS_2025 (s : FilingStatus) : list Bracket.t :=
  match s with
  | single =>
    [ Bracket.mk 0 (Fin 11925) 0.10;
      Bracket.mk 11926 (Fin 48475) 0.12;
      Bracket.mk 48476 (Fin 103350) 0.22;
      Bracket.mk 103351 (Fin 197300) 0.24;
      Bracket.mk 197301 (Fin 250525) 0.32;
      Bracket.mk 250526 (Fin 626350) 0.35;
      Bracket.mk 626351 Infinity 0.37 ]
  | married =>
    [ Bracket.mk 0 (Fin 23850) 0.10;
      Bracket.mk 23851 (Fin 96950) 0.12;
      Bracket.mk 96951 (Fin 206700) 0.22;
      Bracket.mk 206701 (Fin 394600) 0.24;
      Bracket.mk 394601 (Fin 501050) 0.32;
      Bracket.mk 501051 (Fin 751600) 0.35;
      Bracket.mk 751601 Infinity 0.37 ]
  end.

(** ** Self-employment tax *)

(** The local [seTaxableEarnings]: 92.35% of net profit. *)
Definition seTaxableEarnings (netProfit : Q) : Q := netProfit * 0.9235.

Definition calculateSelfEmploymentTax (netProfit : Q) (filingStatus : FilingStatus)
  : SelfEmploymentTaxBreakdown :=
  let seTaxableEarnings := seTaxableEarnings netProfit in
  let socialSecurityTaxable :=
    Qmin seTaxableEarnings TAX_CONSTANTS_2025.socialSecurityWageBase in
  let socialSecurityTax :=
    socialSecurityTaxable * TAX_CONSTANTS_2025.socialSecurityRate in
  let medicareTax := seTaxableEarnings * TAX_CONSTANTS_2025.medicareRate in
  let additionalMedicareThreshold :=
    TAX_CONSTANTS_2025.additionalMedicareThreshold filingStatus in
  let additionalMedicareTaxable :=
    Qmax 0 (seTaxableEarnings - additionalMedicareThreshold) in
  let additionalMedicareTax :=
    additionalMedicareTaxable * TAX_CONSTANTS_2025.additionalMedicareRate in
  let totalSETax := socialSecurityTax + medicareTax + additionalMedicareTax in
  let seTaxDeduction := totalSETax * TAX_CONSTANTS_2025.seTaxDeductionRate in
  {| socialSecurityTax := socialSecurityTax;
     medicareTax := medicareTax;
     additionalMedicareTax := additionalMedicareTax;
     totalSETax := totalSETax;
     seTaxDeduction := seTaxDeduction |}.

(** ** Federal income tax *)

(** The three variables the bracket loop updates. *)
Record walk : Type := mkWalk {
  remainingIncome : Q;
  totalTax : Q;
  details : list BracketDetail
}.

(** [bracket.max - bracket.min + 1]. *)
Definition bracketSize (bracket : Bracket.t) : ext :=
  ext_add (ext_sub (Bracket.max bracket) (Bracket.min bracket)) 1.

(** One pass through the body of [for (const bracket of brackets)],
    after the [break] test. *)
Definition bracket_step (bracket : Bracket.t) (st : walk) : walk :=
  let taxableAtRate := ext_min (remainingIncome st) (bracketSize bracket) in
  let taxAtRate := taxableAtRate * Bracket.rate bracket in
  let bracketDetails :=
    if Qgtb taxableAtRate 0
    then details st ++ [ {| rate := Bracket.rate bracket;
                            taxableAtRate := taxableAtRate;
                            taxAtRate := taxAtRate |} ]
    else details st in
  {| remainingIncome := remainingIncome st - taxableAtRate;
     totalTax := totalTax st + taxAtRate;
     details := bracketDetails |}.

(** The loop: it stops at the first bracket reached with
    [remainingIncome <= 0], or when the table is exhausted. *)
Fixpoint bracket_loop (brackets : list Bracket.t) (st : walk) : walk :=
  match brackets with
  | [] => st
  | bracket :: rest =>
    if Qleb (remainingIncome st) 0 then st
    else bracket_loop rest (bracket_step bracket st)
  end.

Definition calculateIncomeTax (netProfit seTaxDeduction : Q) (filingStatus : FilingStatus)
  : IncomeTaxBreakdown :=
  let standardDeduction := TAX_CONSTANTS_2025.standardDeduction filingStatus in
  let brackets := TAX_BRACKETS_2025 filingStatus in
  let agi := netProfit - seTaxDeduction in
  let taxableIncome := Qmax 0 (agi - standardDeduction) in
  let final :=
    bracket_loop brackets
      {| remainingIncome := taxableIncome; totalTax := 0; details := [] |} in
  {| taxableIncome := taxableIncome;
     federalIncomeTax := totalTax final;
     bracketDetails := details final |}.

(** ** Safe Harbor *)

Definition calculateSafeHarbor (priorYearTax priorYearAGI : Q) : SafeHarbor.t :=
  let multiplier :=
    if Qgtb priorYearAGI TAX_CONSTANTS_2025.safeHarborHighIncomeThreshold
    then TAX_CONSTANTS_2025.safeHarborHighIncomeMultiplier
    else TAX_CONSTANTS_2025.safeHarborStandardMultiplier in
  {| SafeHarbor.safeHarborMinimum := priorYearTax * multiplier;
     SafeHarbor.multiplier := multiplier |}.

(** ** The main calculation *)

Definition calculateTaxes (inputs : TaxInputs) : TaxCalculationResult :=
  let selfEmploymentTax :=
    calculateSelfEmploymentTax (currentYearProfit inputs) (filingStatus inputs) in
  let incomeTax :=
    calculateIncomeTax (currentYearProfit inputs)
      (seTaxDeduction selfEmploymentTax) (filingStatus inputs) in
  let currentYearTotalTax :=
    totalSETax selfEmploymentTax + federalIncomeTax incomeTax in
  let currentYearAvoidanceMinimum :=
    currentYearTotalTax * TAX_CONSTANTS_2025.currentYearAvoidanceMultiplier in
  let sh := calculateSafeHarbor (priorYearTax inputs) (priorYearAGI inputs) in
  let safeHarborMinimum := SafeHarbor.safeHarborMinimum sh in
  let safeHarborMultiplier := SafeHarbor.multiplier sh in
  let requiredAnnualPayment := Qmin safeHarborMinimum currentYearAvoidanceMinimum in
  let quarterlyPayment := requiredAnnualPayment / 4 in
  let isCurrentYearLower := Qltb currentYearAvoidanceMinimum safeHarborMinimum in
  let savings := Qabs (safeHarborMinimum - currentYearAvoidanceMinimum) in
  {| selfEmploymentTax := selfEmploymentTax;
     incomeTax := incomeTax;
     currentYearTotalTax := currentYearTotalTax;
     currentYearAvoidanceMinimum := currentYearAvoidanceMinimum;
     safeHarborMultiplier := safeHarborMultiplier;
     safeHarborMinimum := safeHarborMinimum;
     requiredAnnualPayment := requiredAnnualPayment;
     quarterlyPayment := quarterlyPayment;
     isCurrentYearLower := isCurrentYearLower;
     savings := savings |}.

(** ** Parsing helper *)

(** Strings are sequences of 8-bit characters here; the characters the
    regular expression keeps are all ASCII, and every other character,
    whatever its code, is removed by it. *)

Definition is_digit (c : ascii) : bool :=
  let n := nat_of_ascii c in ((48 <=? n) && (n <=? 57))%nat.

(** The characters the class [0-9.-] matches. *)
Definition kept (c : ascii) : bool :=
  is_digit c || Ascii.eqb c "." || Ascii.eqb c "-".

(** [value.replace(/[^0-9.-]/g, '')]. *)
Fixpoint strip (value : string) : string :=
  match value with
  | EmptyString => EmptyString
  | String c rest => if kept c then String c (strip rest) else strip rest
  end.

(** The longest run of decimal digits at the head of a string, as digit
    values, and what follows it. *)
Fixpoint span_digits (s : string) : list Z * string :=
  match s with
  | String c rest =>
    if is_digit c
    then let (ds, tl) := span_digits rest in
         (Z.of_nat (nat_of_ascii c - 48) :: ds, tl)
    else ([], s)
  | EmptyString => ([], s)
  end.

Definition digits_value (ds : list Z) : Z :=
  fold_left (fun acc d => (10 * acc + d)%Z) ds 0%Z.

(** An optional minus sign at the head of a string. *)
Definition read_sign (s : string) : bool * string :=
  match s with
  | String c rest => if Ascii.eqb c "-" then (true, rest) else (false, s)
  | EmptyString => (false, s)
  end.

(** The digits after a decimal point at the head of a string. *)
Definition read_fraction (s : string) : list Z :=
  match s with
  | String c rest => if Ascii.eqb c "." then fst (span_digits rest) else []
  | EmptyString => []
  end.

(** The built-in [parseFloat] on the strings [strip] produces.  It reads
    the longest prefix of the form [-]digits[.digits] or [-].digits and
    returns its value; [None] stands for [NaN], the result when no prefix
    has that form.  (On such strings there is no leading white space, no
    [+], no exponent and no [Infinity] to read.) *)
Definition parseFloat (s : string) : option Q :=
  let (negative, body) := read_sign s in
  let (ip, tl) := span_digits body in
  let fp := read_fraction tl in
  match ip, fp with
  | [], [] => None
  | _, _ =>
    let v := digits_value (ip ++ fp)%list # Z.to_pos (10 ^ Z.of_nat (List.length fp)) in
    Some (if negative then - v else v)
  end.

Definition parseCurrency (value : string) : Q :=
  let cleaned := strip value in
  let parsed := parseFloat cleaned in
  match parsed with
  | None => 0
  | Some q => q
  end.

(** ** What the properties are stated with *)

(** [reduce((sum, b) => sum + b.taxAtRate, 0)], the sum a consumer of the
    bracket details makes. *)
Definition sum_taxAtRate (ds : list BracketDetail) : Q :=
  fold_left (fun sum b => sum + taxAtRate b) ds 0.

Definition sum_taxableAtRate (ds : list BracketDetail) : Q :=
  fold_left (fun sum b => sum + taxableAtRate b) ds 0.

(** The entries the loop appends when it starts on [brackets] with
    [remaining] left, and what is left when it stops. *)
Fixpoint entries (brackets : list Bracket.t) (remaining : Q) : list BracketDetail :=
  match brackets with
  | [] => []
  | bracket :: rest =>
    if Qleb remaining 0 then []
    else
      let t := ext_min remaining (bracketSize bracket) in
      {| rate := Bracket.rate bracket; taxableAtRate := t;
         taxAtRate := t * Bracket.rate bracket |} :: entries rest (remaining - t)
  end.

Fixpoint leftover (brackets : list Bracket.t) (remaining : Q) : Q :=
  match brackets with
  | [] => remaining
  | bracket :: rest =>
    if Qleb remaining 0 then remaining
    else leftover rest (remaining - ext_min remaining (bracketSize bracket))
  end.

(** A bracket has room for some income. *)
Definition size_pos (bracket : Bracket.t) : Prop :=
  match bracketSize bracket with
  | Fin s => 0 < s
  | Infinity => True
  end.

Definition unbounded (bracket : Bracket.t) : Prop :=
  bracketSize bracket = Infinity.

(** A table the walk can be reasoned about: every bracket has room and
    no rate is negative. *)
Definition bracket_ok (bracket : Bracket.t) : Prop :=
  size_pos bracket /\ 0 <= Bracket.rate bracket.

(** A string starts with something [parseFloat] can read: after an
    optional minus sign, a digit, or a point followed by a digit. *)
Definition starts_number (s : string) : bool :=
  match snd (read_sign s) with
  | String c rest =>
    is_digit c ||
    (Ascii.eqb c "." && match rest with String d _ => is_digit d | _ => false end)
  | EmptyString => false
  end.

Definition scenarioA : TaxInputs :=
  {| filingStatus := single; priorYearTax := 25000;
     priorYearAGI := 140000; currentYearProfit := 200000 |}.

(** ** What further properties are stated with *)

(** A finite amount compared with a bracket size. *)
Definition ext_le (q : Q) (x : ext) : Prop :=
  match x with
  | Fin s => q <= s
  | Infinity => True
  end.

Definition ext_eq (q : Q) (x : ext) : Prop :=
  match x with
  | Fin s => q == s
  | Infinity => False
  end.

(** Every rate of a table lies between two bounds. *)
Definition rates_within (lo hi : Q) (brackets : list Bracket.t) : Prop :=
  Forall (fun b => lo <= Bracket.rate b <= hi) brackets.

(** ** Formatting helper *)

(** [Math.round]: the nearest integer, a half going up. *)
Definition Math_round (x : Q) : Z := Qfloor (x + 0.5).

(** The characters of a decimal numeral, most significant digit first. *)
Fixpoint uint_chars (d : Decimal.uint) : list ascii :=
  match d with
  | Decimal.Nil => []
  | Decimal.D0 t => "0"%char :: uint_chars t
  | Decimal.D1 t => "1"%char :: uint_chars t
  | Decimal.D2 t => "2"%char :: uint_chars t
  | Decimal.D3 t => "3"%char :: uint_chars t
  | Decimal.D4 t => "4"%char :: uint_chars t
  | Decimal.D5 t => "5"%char :: uint_chars t
  | Decimal.D6 t => "6"%char :: uint_chars t
  | Decimal.D7 t => "7"%char :: uint_chars t
  | Decimal.D8 t => "8"%char :: uint_chars t
  | Decimal.D9 t => "9"%char :: uint_chars t
  end.

(** The decimal digits of a natural number, without leading zeros. *)
Definition decimal (n : N) : list ascii := uint_chars (N.to_uint n).

(** Grouping by thousands, on digits given least significant first: a
    comma after every third digit that has a digit after it. *)
Fixpoint group3_rev (l : list ascii) : list ascii :=
  match l with
  | a :: b :: c :: ((_ :: _) as rest) =>
    a :: b :: c :: ","%char :: group3_rev rest
  | _ => l
  end.

Definition group3 (l : list ascii) : list ascii := rev (group3_rev (rev l)).

(** [formatCurrency]: [Intl.NumberFormat('en-US', {style: 'currency',
    currency: 'USD'})] with no fraction digits, applied to
    [Math.round(amount)].  For that locale the built-in writes a minus
    sign for a negative number (also one that rounds to zero), the
    dollar sign, and the digits grouped by thousands with commas. *)
Definition formatCurrency (amount : Q) : string :=
  let rounded := Math_round amount in
  string_of_list_ascii
    ((if Qltb amount 0 then ["-"%char] else []) ++
     "$"%char :: group3 (decimal (Z.abs_N rounded)))%list.

(** ** The calculator page, [client/src/components/TaxCalculator.tsx] *)

(** [CurrencyInput.handleChange]: what is typed, with every character
    that is not a digit removed, is what is stored. *)
Fixpoint handleChange (text : string) : string :=
  match text with
  | EmptyString => EmptyString
  | String c rest =>
    if is_digit c then String c (handleChange rest) else handleChange rest
  end.

(** White space and line terminators among 8-bit characters. *)
Definition is_white_space (c : ascii) : bool :=
  let n := nat_of_ascii c in
  (((9 <=? n) && (n <=? 13)) || (n =? 32) || (n =? 160))%nat.

Fixpoint trim_start (s : string) : string :=
  match s with
  | String c rest => if is_white_space c then trim_start rest else s
  | EmptyString => s
  end.

(** The built-in [parseInt(s, 10)]: leading white space is skipped, a
    sign is read, then the longest run of decimal digits; [None] stands
    for [NaN], the result when there is no digit to read.  The integer
    read is returned as it is written; the built-in returns the
    nearest binary64 number, the same one up to 2^53. *)
Definition parseInt (s : string) : option Z :=
  let S := trim_start s in
  let (sign, body) :=
    match S with
    | String c rest =>
      if Ascii.eqb c "-" then ((-1)%Z, rest)
      else if Ascii.eqb c "+" then (1%Z, rest)
      else (1%Z, S)
    | EmptyString => (1%Z, S)
    end in
  match fst (span_digits body) with
  | [] => None
  | ds => Some (sign * digits_value ds)%Z
  end.

(** [n || 0] for a number [n]: [NaN] and [0] both give [0]. *)
Definition or_zero (n : option Z) : Z :=
  match n with
  | Some z => z
  | None => 0%Z
  end.

(** A string is truthy when it is not empty. *)
Definition truthy (s : string) : bool :=
  match s with
  | EmptyString => false
  | String _ _ => true
  end.

(** [Number.prototype.toString] on an integer below 10^21 in
    magnitude: a minus sign if it is negative, then its decimal
    digits.  (From 10^21 on the built-in writes an exponent; the
    properties below stay below 2^53.) *)
Definition Number_toString (n : Z) : string :=
  string_of_list_ascii
    ((if (n <? 0)%Z then ["-"%char] else []) ++ decimal (Z.abs_N n))%list.

(** [CurrencyInput.handleBlur]: a stored string that is not empty and
    that [parseInt] can read is replaced by the number read, written
    out again; any other is left as it is. *)
Definition handleBlur (value : string) : string :=
  if truthy value then
    match parseInt value with
    | Some numValue => Number_toString numValue
    | None => value
    end
  else value.

(** The largest integer up to which every integer is a binary64
    number, 2^53. *)
Definition MAX_EXACT : Z := 9007199254740992.

(** What an amount box can hold: the digits of a typed text, here one
    that writes a number below 2^53, and what leaving the box makes of
    a string it holds. *)
Inductive stored : string -> Prop :=
| stored_change (text : string) :
    (or_zero (parseInt (handleChange text)) < MAX_EXACT)%Z ->
    stored (handleChange text)
| stored_blur (value : string) :
    stored value -> stored (handleBlur value).

(** The memoised [result] of the page: [null] until the three amounts
    are filled in, then [calculateTaxes] on what [parseInt] reads. *)
Definition TaxCalculator_result (filingStatus : FilingStatus)
    (priorYearTax priorYearAGI currentYearProfit : string)
  : option TaxCalculationResult :=
  let hasAllInputs :=
    truthy priorYearTax && truthy priorYearAGI && truthy currentYearProfit in
  if negb hasAllInputs then None
  else
    let inputs :=
      {| filingStatus := filingStatus;
         priorYearTax := inject_Z (or_zero (parseInt priorYearTax));
         priorYearAGI := inject_Z (or_zero (parseInt priorYearAGI));
         currentYearProfit := inject_Z (or_zero (parseInt currentYearProfit)) |} in
    Some (calculateTaxes inputs).

(** [isSafeHarborRecommended]. *)
Definition isSafeHarborRecommended (result : option TaxCalculationResult) : bool :=
  match result with
  | Some r => negb (isCurrentYearLower r)
  | None => false
  end.

(** The two result cards: the amount shown and the recommended mark. *)
Definition currentYearCard (r : TaxCalculationResult) : Q * bool :=
  (currentYearAvoidanceMinimum r, isCurrentYearLower r).

Definition safeHarborCard (r : TaxCalculationResult) : Q * bool :=
  (safeHarborMinimum r, isSafeHarborRecommended (Some r)).

(** [multiplierPercent] of the Safe Harbor card. *)
Definition multiplierPercent (r : TaxCalculationResult) : Z :=
  Math_round (safeHarborMultiplier r * 100).

(** [isHighIncome], as the explanation and the summary document test it. *)
Definition isHighIncome (priorYearAGI : Q) : bool :=
  Qgtb priorYearAGI TAX_CONSTANTS_2025.safeHarborHighIncomeThreshold.

Record PenaltyComparison : Type := mkPenaltyComparison {
  worstCaseUnderpayment : Q;
  potentialPenalty : Q;
  cashFlowSavings : Q
}.

(** The figures of [PenaltySavingsComparison]; [None] when the
    component renders nothing. *)
Definition PenaltySavingsComparison (result : TaxCalculationResult) (priorYearTax : Q)
  : option PenaltyComparison :=
  let irsInterestRate := 0.08 in
  let worstCaseUnderpayment :=
    Qmax 0 (currentYearTotalTax result - safeHarborMinimum result) in
  let averageQuartersUnderpaid := 2 in
  let potentialPenalty :=
    worstCaseUnderpayment * (irsInterestRate / 12) * (averageQuartersUnderpaid * 3) in
  let differenceFromSafeHarbor :=
    currentYearAvoidanceMinimum result - safeHarborMinimum result in
  let cashFlowSavings :=
    if Qgtb differenceFromSafeHarbor 0 then differenceFromSafeHarbor else 0 in
  if Qeq_bool priorYearTax 0 then None
  else Some {| worstCaseUnderpayment := worstCaseUnderpayment;
               potentialPenalty := potentialPenalty;
               cashFlowSavings := cashFlowSavings |}.

(** ** The summary document, [client/src/lib/pdfExport.ts] *)

Definition QUARTERS : list (string * string) :=
  [ ("Q1", "April 15, 2025"); ("Q2", "June 16, 2025");
    ("Q3", "September 15, 2025"); ("Q4", "January 15, 2026") ]%string.

(** The rows of the payment schedule: label, date, amount printed. *)
Definition schedule (result : TaxCalculationResult) : list (string * string * string) :=
  map (fun quarter => (fst quarter, snd quarter,
                       formatCurrency (quarterlyPayment result))) QUARTERS.

Definition recommendedOption (result : TaxCalculationResult) : string :=
  if isCurrentYearLower result then "Current Year Estimate" else "Safe Harbor".

Definition recommendedAmount (result : TaxCalculationResult) : Q :=
  if isCurrentYearLower result then currentYearAvoidanceMinimum result
  else safeHarborMinimum result.

(** ** Storage, [client/src/hooks/useLocalStorage.ts] *)

Definition STORAGE_KEY_PREFIX : string := "safe-harbor-tax-".

(** [window.localStorage] as its entries, in the order of its keys. *)
Definition Storage : Type := list (string * string).

Definition fullKey (key : string) : string := (STORAGE_KEY_PREFIX ++ key)%string.

Definition getItem (key : string) (st : Storage) : option string :=
  option_map snd (find (fun kv => String.eqb (fst kv) key) st).

Definition removeItem (key : string) (st : Storage) : Storage :=
  filter (fun kv => negb (String.eqb (fst kv) key)) st.

(** [setItem] overwrites the entry of a key that exists and adds one
    otherwise. *)
Fixpoint setItem (key value : string) (st : Storage) : Storage :=
  match st with
  | [] => [(key, value)]
  | kv :: rest =>
    if String.eqb (fst kv) key then (key, value) :: rest
    else kv :: setItem key value rest
  end.

(** [clearTaxCalculatorStorage], when the storage can be reached. *)
Definition clearTaxCalculatorStorage (st : Storage) : Storage :=
  let keysToRemove :=
    filter (fun key => prefix STORAGE_KEY_PREFIX key) (map fst st) in
  fold_left (fun st' key => removeItem key st') keysToRemove st.

(** Every character of a string is a digit. *)
Fixpoint all_digits (s : string) : bool :=
  match s with
  | EmptyString => true
  | String c rest => is_digit c && all_digits rest
  end.

(** The digits of a decimal numeral as numbers. *)
Fixpoint uint_vals (d : Decimal.uint) : list Z :=
  match d with
  | Decimal.Nil => []
  | Decimal.D0 t => 0%Z :: uint_vals t
  | Decimal.D1 t => 1%Z :: uint_vals t
  | Decimal.D2 t => 2%Z :: uint_vals t
  | Decimal.D3 t => 3%Z :: uint_vals t
  | Decimal.D4 t => 4%Z :: uint_vals t
  | Decimal.D5 t => 5%Z :: uint_vals t
  | Decimal.D6 t => 6%Z :: uint_vals t
  | Decimal.D7 t => 7%Z :: uint_vals t
  | Decimal.D8 t => 8%Z :: uint_vals t
  | Decimal.D9 t => 9%Z :: uint_vals t
  end.

(** ** The income tax calculator on binary64 numbers

    The same source function, [calculateIncomeTax], with the numbers it
    runs on: IEEE 754 binary64, every operation rounded to nearest.
    It is here to evaluate the code where rounding decides. *)

Module Binary64.
Import Floats.
#[local] Set Warnings "-inexact-float".
Local Open Scope float_scope.

(** [Math.min] and [Math.max]: [NaN] if an argument is, and [-0] below
    [+0]. *)
Definition Math_min (x y : float) : float :=
  if is_nan x || is_nan y then nan
  else if x <? y then x
  else if y <? x then y
  else if get_sign x then x else y.

Definition Math_max (x y : float) : float :=
  if is_nan x || is_nan y then nan
  else if x <? y then y
  else if y <? x then x
  else if get_sign x then y else x.

Module Bracket.
Record t : Type := mk { min : float; max : float; rate : float }.
End Bracket.

Record BracketDetail : Type := mkBracketDetail {
  rate : float;
  taxableAtRate : float;
  taxAtRate : float
}.

Record IncomeTaxBreakdown : Type := mkIncomeTaxBreakdown {
  taxableIncome : float;
  federalIncomeTax : float;
  bracketDetails : list BracketDetail
}.

Definition standardDeduction (s : FilingStatus) : float :=
  match s with single => 15750 | married => 31500 end.

Definition TAX_BRACKETS_2025 (s : FilingStatus) : list Bracket.t :=
  match s with
  | single =>
    [ Bracket.mk 0 11925 0.10;
      Bracket.mk 11926 48475 0.12;
      Bracket.mk 48476 103350 0.22;
      Bracket.mk 103351 197300 0.24;
      Bracket.mk 197301 250525 0.32;
      Bracket.mk 250526 626350 0.35;
      Bracket.mk 626351 infinity 0.37 ]
  | married =>
    [ Bracket.mk 0 23850 0.10;
      Bracket.mk 23851 96950 0.12;
      Bracket.mk 96951 206700 0.22;
      Bracket.mk 206701 394600 0.24;
      Bracket.mk 394601 501050 0.32;
      Bracket.mk 501051 751600 0.35;
      Bracket.mk 751601 infinity 0.37 ]
  end.

Record walk : Type := mkWalk {
  remainingIncome : float;
  totalTax : float;
  details : list BracketDetail
}.

Definition bracket_step (bracket : Bracket.t) (st : walk) : walk :=
  let bracketSize := Bracket.max bracket - Bracket.min bracket + 1 in
  let taxableAtRate := Math_min (remainingIncome st) bracketSize in
  let taxAtRate := taxableAtRate * Bracket.rate bracket in
  let bracketDetails :=
    if 0 <? taxableAtRate
    then (details st ++ [ {| rate := Bracket.rate bracket;
                             taxableAtRate := taxableAtRate;
                             taxAtRate := taxAtRate |} ])%list
    else details st in
  {| remainingIncome := remainingIncome st - taxableAtRate;
     totalTax := totalTax st + taxAtRate;
     details := bracketDetails |}.

Fixpoint bracket_loop (brackets : list Bracket.t) (st : walk) : walk :=
  match brackets with
  | [] => st
  | bracket :: rest =>
    if remainingIncome st <=? 0 then st
    else bracket_loop rest (bracket_step bracket st)
  end.

Definition calculateIncomeTax (netProfit seTaxDeduction : float) (filingStatus : FilingStatus)
  : IncomeTaxBreakdown :=
  let standardDeduction := standardDeduction filingStatus in
  let brackets := TAX_BRACKETS_2025 filingStatus in
  let agi := netProfit - seTaxDeduction in
  let taxableIncome := Math_max 0 (agi - standardDeduction) in
  let final :=
    bracket_loop brackets
      {| remainingIncome := taxableIncome; totalTax := 0; details := [] |} in
  {| taxableIncome := taxableIncome;
     federalIncomeTax := totalTax final;
     bracketDetails := details final |}.

(** [reduce((sum, b) => sum + b.taxableAtRate, 0)]. *)
Definition sum_taxableAtRate (ds : list BracketDetail) : float :=
  fold_left (fun sum b => sum + taxableAtRate b) ds 0.

(** A call with a profit above 2^53. *)
Definition large_profit : float := 9046282048391080.
Definition large_taxableIncome : float := 9046282048375330.
Definition large_sum : float := 9046282048375332.

End Binary64.

(** * Properties *)

(** ** Comparisons *)

Lemma Qltb_lt (a b : Q) : Qltb a b = true <-> a < b.
Proof.
  unfold Qltb. rewrite negb_true_iff, <- not_true_iff_false, Qle_bool_iff.
  split; [apply Qnot_le_lt | apply Qlt_not_le].
Qed.

Lemma Qltb_ge (a b : Q) : Qltb a b = false <-> b <= a.
Proof.
  unfold Qltb. rewrite negb_false_iff. apply Qle_bool_iff.
Qed.

Lemma Qgtb_gt (a b : Q) : Qgtb a b = true <-> b < a.
Proof. apply Qltb_lt. Qed.

Lemma Qgtb_le (a b : Q) : Qgtb a b = false <-> a <= b.
Proof. apply Qltb_ge. Qed.

Lemma Qleb_le (a b : Q) : Qleb a b = true <-> a <= b.
Proof. apply Qle_bool_iff. Qed.

Lemma Qleb_gt (a b : Q) : Qleb a b = false <-> b < a.
Proof.
  unfold Qleb. rewrite <- not_true_iff_false, Qle_bool_iff.
  split; [apply Qnot_le_lt | apply Qlt_not_le].
Qed.

(** ** The bracket loop *)

Lemma ext_min_le (r : Q) (x : ext) : ext_min r x <= r.
Proof.
  destruct x as [a|]; simpl; [apply Q.le_min_l | apply Qle_refl].
Qed.

Lemma ext_min_pos (r : Q) (bracket : Bracket.t) :
  size_pos bracket -> 0 < r -> 0 < ext_min r (bracketSize bracket).
Proof.
  unfold size_pos. destruct (bracketSize bracket) as [a|]; simpl; intros Ha Hr; auto.
  destruct (Q.min_spec r a) as [[_ H] | [_ H]]; rewrite H; assumption.
Qed.

Lemma ext_min_mono (a b : Q) (x : ext) : a <= b -> ext_min a x <= ext_min b x.
Proof.
  destruct x as [s|]; simpl; intros H; auto.
  apply Q.min_le_compat_r; assumption.
Qed.

(** What is left grows with what there was. *)
Lemma ext_min_rest_mono (a b : Q) (x : ext) :
  a <= b -> a - ext_min a x <= b - ext_min b x.
Proof.
  destruct x as [s|]; simpl; intros H; [| lra].
  destruct (Q.min_spec a s) as [[? Ha] | [? Ha]];
  destruct (Q.min_spec b s) as [[? Hb] | [? Hb]]; rewrite Ha, Hb; lra.
Qed.

(** The loop written out: on a table whose brackets all have room, it
    appends [entries], adds their taxes to the total in the same order,
    and leaves [leftover]. *)
Lemma bracket_loop_entries (brackets : list Bracket.t) :
  Forall size_pos brackets ->
  forall st : walk,
    bracket_loop brackets st =
    {| remainingIncome := leftover brackets (remainingIncome st);
       totalTax := fold_left (fun sum b => sum + taxAtRate b)
                     (entries brackets (remainingIncome st)) (totalTax st);
       details := (details st ++ entries brackets (remainingIncome st))%list |}.
Proof.
  induction 1 as [| bracket rest Hpos _ IH]; intros [r t ds]; simpl.
  - now rewrite app_nil_r.
  - destruct (Qleb r 0) eqn:Hr; simpl.
    + now rewrite app_nil_r.
    + apply Qleb_gt in Hr.
      rewrite IH. unfold bracket_step; simpl.
      pose proof (ext_min_pos r bracket Hpos Hr) as Ht.
      apply Qgtb_gt in Ht. rewrite Ht. simpl.
      now rewrite <- app_assoc.
Qed.

Lemma leftover_nonpos (brackets : list Bracket.t) (r : Q) :
  r <= 0 -> leftover brackets r = r.
Proof.
  intros H. apply Qleb_le in H. destruct brackets; simpl; [| rewrite H]; reflexivity.
Qed.

Lemma leftover_nonneg (brackets : list Bracket.t) :
  forall r : Q, 0 <= r -> 0 <= leftover brackets r.
Proof.
  induction brackets as [| bracket rest IH]; intros r Hr; simpl; auto.
  destruct (Qleb r 0); auto.
  apply IH. pose proof (ext_min_le r (bracketSize bracket)). lra.
Qed.

Lemma leftover_unbounded (brackets : list Bracket.t) :
  Exists unbounded brackets -> forall r : Q, leftover brackets r <= 0.
Proof.
  induction 1 as [bracket rest Hinf | bracket rest _ IH]; intros r; simpl.
  - destruct (Qleb r 0) eqn:Hr; [now apply Qleb_le |].
    unfold unbounded in Hinf. rewrite Hinf. simpl.
    rewrite leftover_nonpos; lra.
  - destruct (Qleb r 0) eqn:Hr; [now apply Qleb_le | apply IH].
Qed.

Lemma fold_taxable_acc (ds : list BracketDetail) :
  forall acc : Q,
    fold_left (fun sum b => sum + taxableAtRate b) ds acc ==
    acc + sum_taxableAtRate ds.
Proof.
  unfold sum_taxableAtRate.
  induction ds as [| d ds IH]; intros acc; simpl; [lra |].
  rewrite IH, (IH (0 + taxableAtRate d)). lra.
Qed.

Lemma fold_tax_acc (ds : list BracketDetail) :
  forall acc : Q,
    fold_left (fun sum b => sum + taxAtRate b) ds acc ==
    acc + sum_taxAtRate ds.
Proof.
  unfold sum_taxAtRate.
  induction ds as [| d ds IH]; intros acc; simpl; [lra |].
  rewrite IH, (IH (0 + taxAtRate d)). lra.
Qed.

(** No income is lost or counted twice. *)
Lemma entries_account (brackets : list Bracket.t) :
  forall r : Q, sum_taxableAtRate (entries brackets r) + leftover brackets r == r.
Proof.
  induction brackets as [| bracket rest IH]; intros r; simpl.
  - unfold sum_taxableAtRate; simpl; lra.
  - destruct (Qleb r 0).
    + unfold sum_taxableAtRate; simpl; lra.
    + unfold sum_taxableAtRate; simpl.
      rewrite fold_taxable_acc.
      specialize (IH (r - ext_min r (bracketSize bracket))). lra.
Qed.

Lemma entries_pos (brackets : list Bracket.t) :
  Forall size_pos brackets ->
  forall r : Q, Forall (fun d => 0 < taxableAtRate d) (entries brackets r).
Proof.
  induction 1 as [| bracket rest Hpos _ IH]; intros r; simpl; auto.
  destruct (Qleb r 0) eqn:Hr; auto.
  apply Qleb_gt in Hr. constructor; [| apply IH].
  simpl. now apply ext_min_pos.
Qed.

Lemma entries_rates (brackets : list Bracket.t) :
  forall r : Q,
    map rate (entries brackets r) =
    firstn (List.length (entries brackets r)) (map Bracket.rate brackets).
Proof.
  induction brackets as [| bracket rest IH]; intros r; simpl; auto.
  destruct (Qleb r 0); simpl; auto.
  now rewrite <- IH.
Qed.

Lemma entries_tax (brackets : list Bracket.t) :
  forall r : Q,
    Forall (fun d => taxAtRate d = taxableAtRate d * rate d) (entries brackets r).
Proof.
  induction brackets as [| bracket rest IH]; intros r; simpl; auto.
  destruct (Qleb r 0); auto.
Qed.

Lemma firstn_incl {A : Type} (x : A) (l : list A) :
  forall n : nat, In x (firstn n l) -> In x l.
Proof.
  induction l as [| a l IH]; intros [| n]; simpl; try tauto.
  intros [H | H]; [left | right; apply (IH n)]; assumption.
Qed.

Lemma StronglySorted_firstn {A : Type} (R : A -> A -> Prop) (l : list A) :
  StronglySorted R l -> forall n : nat, StronglySorted R (firstn n l).
Proof.
  induction 1 as [| a l Hl IH Ha]; intros [| n]; simpl; try constructor.
  - apply IH.
  - rewrite Forall_forall in *. intros x Hx. apply Ha.
    eapply firstn_incl; eassumption.
Qed.

Lemma sum_taxAtRate_cons (d : BracketDetail) (ds : list BracketDetail) :
  sum_taxAtRate (d :: ds) == taxAtRate d + sum_taxAtRate ds.
Proof.
  unfold sum_taxAtRate at 1. simpl. rewrite fold_tax_acc. lra.
Qed.

Lemma entries_tax_nonneg (brackets : list Bracket.t) :
  Forall bracket_ok brackets ->
  forall r : Q, 0 <= sum_taxAtRate (entries brackets r).
Proof.
  induction 1 as [| bracket rest [Hpos Hrate] _ IH]; intros r; simpl.
  - unfold sum_taxAtRate; simpl; lra.
  - destruct (Qleb r 0) eqn:Hr; [unfold sum_taxAtRate; simpl; lra |].
    apply Qleb_gt in Hr.
    rewrite sum_taxAtRate_cons. simpl.
    specialize (IH (r - ext_min r (bracketSize bracket))).
    pose proof (ext_min_pos r bracket Hpos Hr). nra.
Qed.

(** More income never yields less tax. *)
Lemma entries_tax_mono (brackets : list Bracket.t) :
  Forall bracket_ok brackets ->
  forall a b : Q, a <= b ->
    sum_taxAtRate (entries brackets a) <= sum_taxAtRate (entries brackets b).
Proof.
  induction 1 as [| bracket rest [Hpos Hrate] Hrest IH]; intros a b Hab; simpl.
  - apply Qle_refl.
  - destruct (Qleb a 0) eqn:Ha.
    + destruct (Qleb b 0) eqn:Hb; [apply Qle_refl |].
      assert (Hok : Forall bracket_ok (bracket :: rest))
        by (constructor; [split |]; assumption).
      pose proof (entries_tax_nonneg _ Hok b) as Hnn.
      simpl in Hnn. rewrite Hb in Hnn. exact Hnn.
    + apply Qleb_gt in Ha.
      assert (Hb : Qleb b 0 = false) by (apply Qleb_gt; lra).
      rewrite Hb. rewrite !sum_taxAtRate_cons. simpl.
      pose proof (ext_min_mono a b (bracketSize bracket) Hab).
      pose proof (ext_min_rest_mono a b (bracketSize bracket) Hab) as Hrem.
      specialize (IH _ _ Hrem). nra.
Qed.

(** ** The 2025 bracket tables *)

Ltac table_fact :=
  repeat first
    [ apply Forall_cons | apply Forall_nil | split
    | exact I | vm_compute; reflexivity | vm_compute; discriminate ].

Lemma brackets_ok (s : FilingStatus) : Forall bracket_ok (TAX_BRACKETS_2025 s).
Proof. destruct s; unfold bracket_ok, size_pos; table_fact. Qed.

Lemma brackets_size_pos (s : FilingStatus) : Forall size_pos (TAX_BRACKETS_2025 s).
Proof.
  eapply Forall_impl; [| apply brackets_ok]. now intros b [H _].
Qed.

Lemma brackets_unbounded (s : FilingStatus) : Exists unbounded (TAX_BRACKETS_2025 s).
Proof.
  destruct s; do 6 apply Exists_cons_tl; apply Exists_cons_hd; reflexivity.
Qed.

Lemma brackets_rates_ascending (s : FilingStatus) :
  StronglySorted Qlt (map Bracket.rate (TAX_BRACKETS_2025 s)).
Proof.
  destruct s; simpl;
    repeat first [ apply SSorted_cons | apply SSorted_nil | table_fact ].
Qed.

(** ** The income tax calculator *)

Lemma bracket_loop_done (brackets : list Bracket.t) (st : walk) :
  remainingIncome st <= 0 -> bracket_loop brackets st = st.
Proof.
  intros H. apply Qleb_le in H. destruct brackets; simpl; [| rewrite H]; reflexivity.
Qed.

Lemma calculateIncomeTax_entries (netProfit deduction : Q) (s : FilingStatus) :
  let r := calculateIncomeTax netProfit deduction s in
  bracketDetails r = entries (TAX_BRACKETS_2025 s) (taxableIncome r) /\
  federalIncomeTax r = sum_taxAtRate (bracketDetails r).
Proof.
  unfold calculateIncomeTax. cbv zeta.
  rewrite (bracket_loop_entries _ (brackets_size_pos s)).
  cbn [bracketDetails taxableIncome federalIncomeTax details totalTax
       remainingIncome app]. split; reflexivity.
Qed.

Lemma taxableIncome_nonneg (netProfit deduction : Q) (s : FilingStatus) :
  0 <= taxableIncome (calculateIncomeTax netProfit deduction s).
Proof. simpl. apply Q.le_max_l. Qed.

Lemma sum_taxAtRate_app (xs ys : list BracketDetail) :
  sum_taxAtRate (xs ++ ys) == sum_taxAtRate xs + sum_taxAtRate ys.
Proof.
  unfold sum_taxAtRate at 1. rewrite fold_left_app, fold_tax_acc.
  unfold sum_taxAtRate. lra.
Qed.

(** C5, amended.  Whatever [calculateIncomeTax] is called with, the
    taxable income it reaches is non-negative; as long as that taxable
    income is below 2^53 = 9007199254740992, the amounts
    [taxableAtRate] of the bracket details it returns add up to it
    exactly; and for every taxable income every entry has
    [taxableAtRate > 0] and the entries come in strictly ascending
    order of rate.  (Below 2^53 the subtractions of the walk lose
    nothing in binary64 either; above it they round, and the sum can
    miss the taxable income: see [bracket_details_account_binary64].) *)
Theorem bracket_details_account (netProfit deduction : Q) (s : FilingStatus) :
  let r := calculateIncomeTax netProfit deduction s in
  0 <= taxableIncome r /\
  (taxableIncome r < 9007199254740992 ->
   sum_taxableAtRate (bracketDetails r) == taxableIncome r) /\
  Forall (fun d => 0 < taxableAtRate d) (bracketDetails r) /\
  StronglySorted (fun d1 d2 => rate d1 < rate d2) (bracketDetails r).
Proof.
  intros r.
  destruct (calculateIncomeTax_entries netProfit deduction s) as [Hd _].
  fold r in Hd. pose proof (taxableIncome_nonneg netProfit deduction s) as Hti.
  fold r in Hti. rewrite Hd. repeat split.
  - exact Hti.
  - intros _.
    pose proof (entries_account (TAX_BRACKETS_2025 s) (taxableIncome r)) as Hacc.
    pose proof (leftover_nonneg (TAX_BRACKETS_2025 s) _ Hti).
    pose proof (leftover_unbounded _ (brackets_unbounded s) (taxableIncome r)).
    lra.
  - apply entries_pos, brackets_size_pos.
  - pose proof (entries_rates (TAX_BRACKETS_2025 s) (taxableIncome r)) as Hr.
    pose proof (StronglySorted_firstn Qlt _ (brackets_rates_ascending s)
                  (List.length (entries (TAX_BRACKETS_2025 s) (taxableIncome r)))) as Hs.
    rewrite <- Hr in Hs. clear Hr Hd.
    induction (entries (TAX_BRACKETS_2025 s) (taxableIncome r)) as [| d ds IH];
      [constructor |].
    simpl in Hs. inversion Hs as [| ? ? Hs' Hall]; subst.
    constructor; [apply IH; exact Hs' |].
    rewrite Forall_map in Hall. exact Hall.
Qed.

Lemma bracket_details_account_witness :
  let r := calculateIncomeTax 200000 13596.35 single in
  taxableIncome r < 9007199254740992 /\
  sum_taxableAtRate (bracketDetails r) == taxableIncome r.
Proof.
  cbv zeta. split; [reflexivity |].
  destruct (bracket_details_account 200000 13596.35 single) as (_ & Hsum & _).
  apply Hsum. reflexivity.
Defined.

(** C7.  For a fixed filing status, a call of [calculateIncomeTax] that
    reaches a taxable income no larger than another call's returns a
    federal income tax no larger than the other's. *)
Theorem income_tax_monotone (s : FilingStatus) (netProfit1 deduction1 netProfit2 deduction2 : Q) :
  taxableIncome (calculateIncomeTax netProfit1 deduction1 s) <=
  taxableIncome (calculateIncomeTax netProfit2 deduction2 s) ->
  federalIncomeTax (calculateIncomeTax netProfit1 deduction1 s) <=
  federalIncomeTax (calculateIncomeTax netProfit2 deduction2 s).
Proof.
  intros Hle.
  destruct (calculateIncomeTax_entries netProfit1 deduction1 s) as [Hd1 Ht1].
  destruct (calculateIncomeTax_entries netProfit2 deduction2 s) as [Hd2 Ht2].
  rewrite Ht1, Ht2, Hd1, Hd2.
  apply entries_tax_mono; [apply brackets_ok | exact Hle].
Qed.

Lemma income_tax_monotone_witness :
  taxableIncome (calculateIncomeTax 60000 4000 single) <=
  taxableIncome (calculateIncomeTax 200000 13596.35 single) /\
  federalIncomeTax (calculateIncomeTax 60000 4000 single) <=
  federalIncomeTax (calculateIncomeTax 200000 13596.35 single).
Proof.
  split; [| apply income_tax_monotone]; vm_compute; discriminate.
Defined.

Lemma fold_tax_from_parts (ds : list BracketDetail) :
  Forall (fun d => taxAtRate d = taxableAtRate d * rate d) ds ->
  forall acc : Q,
    fold_left (fun sum b => sum + taxAtRate b) ds acc =
    fold_left (fun sum b => sum + taxableAtRate b * rate b) ds acc.
Proof.
  induction 1 as [| d ds Hd _ IH]; intros acc; simpl; [reflexivity |].
  rewrite Hd. apply IH.
Qed.

Lemma Forall_skipn {A : Type} (P : A -> Prop) (l : list A) :
  Forall P l -> forall n : nat, Forall P (skipn n l).
Proof.
  induction 1 as [| a l Ha Hl IH]; intros [| n]; simpl; auto.
Qed.

(** C10.  Every breakdown [calculateIncomeTax] returns is consistent
    with its own details: [federalIncomeTax] is the sum of [taxAtRate]
    over the entries, taken in their order from 0 as a consumer's
    [reduce] takes it; each entry has
    [taxAtRate = taxableAtRate * rate]; so the sum of [taxAtRate] over
    the entries from any index on (from index 3 it is the Higher
    Brackets line of the page), and with it the total, is rebuilt from
    the amounts and rates of the details alone. *)
Theorem income_tax_consistent (netProfit deduction : Q) (s : FilingStatus) :
  let r := calculateIncomeTax netProfit deduction s in
  federalIncomeTax r = sum_taxAtRate (bracketDetails r) /\
  Forall (fun d => taxAtRate d = taxableAtRate d * rate d) (bracketDetails r) /\
  forall n : nat,
    sum_taxAtRate (skipn n (bracketDetails r)) =
    fold_left (fun sum b => sum + taxableAtRate b * rate b)
      (skipn n (bracketDetails r)) 0.
Proof.
  intros r.
  destruct (calculateIncomeTax_entries netProfit deduction s) as [Hd Ht].
  fold r in Hd, Ht.
  assert (Hparts : Forall (fun d => taxAtRate d = taxableAtRate d * rate d)
                     (bracketDetails r)) by (rewrite Hd; apply entries_tax).
  repeat split.
  - exact Ht.
  - exact Hparts.
  - intros n. apply fold_tax_from_parts, Forall_skipn, Hparts.
Qed.

(** ** The self-employment tax calculator *)

(** C4.  For every filing status and every non-negative net profit:
    SE-taxable earnings are [netProfit * 0.9235]; the additional
    Medicare tax is [max(0, earnings - threshold) * 0.009]; the total is
    the sum of the three components, each of which is non-negative; and
    the deduction is half the total. *)
Theorem se_tax_components (s : FilingStatus) (netProfit : Q) :
  0 <= netProfit ->
  let r := calculateSelfEmploymentTax netProfit s in
  seTaxableEarnings netProfit = netProfit * 0.9235 /\
  medicareTax r = seTaxableEarnings netProfit * 0.029 /\
  additionalMedicareTax r =
    Qmax 0 (seTaxableEarnings netProfit -
            TAX_CONSTANTS_2025.additionalMedicareThreshold s) * 0.009 /\
  totalSETax r = socialSecurityTax r + medicareTax r + additionalMedicareTax r /\
  0 <= socialSecurityTax r /\ 0 <= medicareTax r /\ 0 <= additionalMedicareTax r /\
  seTaxDeduction r = totalSETax r * 0.5.
Proof.
  intros Hnp r.
  assert (He : 0 <= seTaxableEarnings netProfit) by (unfold seTaxableEarnings; lra).
  repeat split; try reflexivity; subst r; simpl;
    unfold TAX_CONSTANTS_2025.socialSecurityWageBase,
      TAX_CONSTANTS_2025.socialSecurityRate, TAX_CONSTANTS_2025.medicareRate,
      TAX_CONSTANTS_2025.additionalMedicareRate.
  - destruct (Q.min_spec (seTaxableEarnings netProfit) 176100) as [[_ H] | [_ H]];
      rewrite H; lra.
  - lra.
  - pose proof (Q.le_max_l 0 (seTaxableEarnings netProfit -
                                TAX_CONSTANTS_2025.additionalMedicareThreshold s)).
    lra.
Qed.

Lemma se_tax_components_witness :
  0 <= 200000 /\
  let r := calculateSelfEmploymentTax 200000 single in
  seTaxableEarnings 200000 = 200000 * 0.9235 /\
  medicareTax r = seTaxableEarnings 200000 * 0.029 /\
  additionalMedicareTax r =
    Qmax 0 (seTaxableEarnings 200000 -
            TAX_CONSTANTS_2025.additionalMedicareThreshold single) * 0.009 /\
  totalSETax r = socialSecurityTax r + medicareTax r + additionalMedicareTax r /\
  0 <= socialSecurityTax r /\ 0 <= medicareTax r /\ 0 <= additionalMedicareTax r /\
  seTaxDeduction r = totalSETax r * 0.5.
Proof.
  split; [| apply (se_tax_components single 200000)]; vm_compute; discriminate.
Defined.

(** C6.  For every filing status and every net profit, however large,
    the Social Security component is at most the wage base times the
    Social Security rate, 176100 * 0.124. *)
Theorem social_security_cap (s : FilingStatus) (netProfit : Q) :
  socialSecurityTax (calculateSelfEmploymentTax netProfit s) <= 176100 * 0.124.
Proof.
  simpl. unfold TAX_CONSTANTS_2025.socialSecurityWageBase,
    TAX_CONSTANTS_2025.socialSecurityRate.
  pose proof (Q.le_min_r (seTaxableEarnings netProfit) 176100). lra.
Qed.

(** ** The Safe Harbor calculator *)

(** C2.  [calculateSafeHarbor] applies the multiplier 1.1 exactly when
    the prior-year AGI is strictly above 150000 and the multiplier 1.0
    otherwise; an AGI of 150000 gives 1.0 and an AGI of 150001 gives
    1.1; the minimum returned is the prior-year tax times the multiplier
    applied. *)
Theorem safe_harbor_multiplier (priorYearTax priorYearAGI : Q) :
  let r := calculateSafeHarbor priorYearTax priorYearAGI in
  (150000 < priorYearAGI <-> SafeHarbor.multiplier r = 1.1) /\
  (priorYearAGI <= 150000 <-> SafeHarbor.multiplier r = 1.0) /\
  SafeHarbor.safeHarborMinimum r = priorYearTax * SafeHarbor.multiplier r /\
  SafeHarbor.multiplier (calculateSafeHarbor priorYearTax 150000) = 1.0 /\
  SafeHarbor.multiplier (calculateSafeHarbor priorYearTax 150001) = 1.1.
Proof.
  cbv zeta. unfold calculateSafeHarbor. simpl.
  unfold TAX_CONSTANTS_2025.safeHarborHighIncomeThreshold,
    TAX_CONSTANTS_2025.safeHarborHighIncomeMultiplier,
    TAX_CONSTANTS_2025.safeHarborStandardMultiplier.
  destruct (Qgtb priorYearAGI 150000) eqn:H.
  - apply Qgtb_gt in H. repeat split; try reflexivity; try discriminate; auto.
    intros H'. lra.
  - apply Qgtb_le in H. repeat split; try reflexivity; try discriminate; auto.
    intros H'. lra.
Qed.

Lemma safe_harbor_multiplier_witness :
  150000 < 151000 /\
  SafeHarbor.multiplier (calculateSafeHarbor 30000 151000) = 1.1 /\
  SafeHarbor.safeHarborMinimum (calculateSafeHarbor 30000 151000) == 33000.
Proof.
  split; [reflexivity |].
  destruct (safe_harbor_multiplier 30000 151000) as (Hhigh & _ & Hmin & _).
  split; [apply Hhigh; reflexivity |].
  rewrite Hmin. reflexivity.
Defined.

(** ** The main calculation *)

(** C1.  For every input record the result of [calculateTaxes] holds
    the three sub-results of the calculators and satisfies:
    [currentYearTotalTax = totalSETax + federalIncomeTax];
    [currentYearAvoidanceMinimum = currentYearTotalTax * 0.9];
    [requiredAnnualPayment] is the lesser of [safeHarborMinimum] and
    [currentYearAvoidanceMinimum]; [quarterlyPayment] is a quarter of
    it, so four of them make the annual payment; [isCurrentYearLower]
    holds exactly when [currentYearAvoidanceMinimum] is strictly below
    [safeHarborMinimum], hence not on a tie; and [savings] is the
    absolute difference of the two minimums. *)
Theorem calculateTaxes_relations (inputs : TaxInputs) :
  let r := calculateTaxes inputs in
  selfEmploymentTax r =
    calculateSelfEmploymentTax (currentYearProfit inputs) (filingStatus inputs) /\
  incomeTax r =
    calculateIncomeTax (currentYearProfit inputs)
      (seTaxDeduction (selfEmploymentTax r)) (filingStatus inputs) /\
  safeHarborMinimum r =
    SafeHarbor.safeHarborMinimum
      (calculateSafeHarbor (priorYearTax inputs) (priorYearAGI inputs)) /\
  safeHarborMultiplier r =
    SafeHarbor.multiplier
      (calculateSafeHarbor (priorYearTax inputs) (priorYearAGI inputs)) /\
  currentYearTotalTax r =
    totalSETax (selfEmploymentTax r) + federalIncomeTax (incomeTax r) /\
  currentYearAvoidanceMinimum r = currentYearTotalTax r * 0.9 /\
  requiredAnnualPayment r =
    Qmin (safeHarborMinimum r) (currentYearAvoidanceMinimum r) /\
  quarterlyPayment r = requiredAnnualPayment r / 4 /\
  quarterlyPayment r * 4 == requiredAnnualPayment r /\
  (isCurrentYearLower r = true <->
   currentYearAvoidanceMinimum r < safeHarborMinimum r) /\
  (currentYearAvoidanceMinimum r == safeHarborMinimum r ->
   isCurrentYearLower r = false) /\
  savings r = Qabs (safeHarborMinimum r - currentYearAvoidanceMinimum r).
Proof.
  intros r. repeat match goal with |- _ /\ _ => split end; try reflexivity.
  - subst r. cbn [quarterlyPayment requiredAnnualPayment calculateTaxes].
    rewrite Qmult_comm. apply Qmult_div_r. discriminate.
  - apply Qltb_lt.
  - intros Htie. apply Qltb_ge.
    change (safeHarborMinimum r <= currentYearAvoidanceMinimum r). lra.
Qed.

Lemma calculateTaxes_relations_witness :
  let r := calculateTaxes (mkTaxInputs married 0 0 0) in
  currentYearAvoidanceMinimum r == safeHarborMinimum r /\
  isCurrentYearLower r = false.
Proof.
  cbv zeta. split; [reflexivity |].
  apply (calculateTaxes_relations (mkTaxInputs married 0 0 0)). reflexivity.
Defined.

(** C3.  The single filer with prior-year tax 25000, prior-year AGI
    140000 and current-year profit 200000: SE-taxable earnings are
    184700; the Social Security tax is [min(184700, 176100) * 0.124 =
    21836.4]; the Medicare tax is 5356.3; there is no additional
    Medicare tax, 184700 being at most 200000; the total SE tax is
    27192.7; the Safe Harbor multiplier is 1.0 and the Safe Harbor
    minimum 25000, which is the lesser minimum and so the required
    annual payment; [isCurrentYearLower] is false; the quarterly payment
    is 6250. *)
Theorem scenarioA_result :
  let r := calculateTaxes scenarioA in
  seTaxableEarnings (currentYearProfit scenarioA) == 184700 /\
  socialSecurityTax (selfEmploymentTax r) == Qmin 184700 176100 * 0.124 /\
  socialSecurityTax (selfEmploymentTax r) == 21836.4 /\
  medicareTax (selfEmploymentTax r) == 5356.3 /\
  184700 <= TAX_CONSTANTS_2025.additionalMedicareThreshold single /\
  additionalMedicareTax (selfEmploymentTax r) == 0 /\
  totalSETax (selfEmploymentTax r) == 27192.7 /\
  safeHarborMultiplier r = 1.0 /\
  safeHarborMinimum r == 25000 /\
  safeHarborMinimum r < currentYearAvoidanceMinimum r /\
  requiredAnnualPayment r == 25000 /\
  isCurrentYearLower r = false /\
  quarterlyPayment r == 6250.
Proof.
  vm_compute. repeat split; try reflexivity; discriminate.
Qed.

(** C8.  At the zero boundary.  A call of [calculateIncomeTax] that
    reaches a taxable income of 0 returns no bracket details and a
    federal income tax of 0.  With a current-year profit of 0 every
    component of the self-employment tax is 0, its deduction is 0, and
    the taxable income is [max(0, 0 - standardDeduction)], which is 0. *)
Theorem zero_boundary :
  (forall (netProfit deduction : Q) (s : FilingStatus),
     taxableIncome (calculateIncomeTax netProfit deduction s) == 0 ->
     bracketDetails (calculateIncomeTax netProfit deduction s) = [] /\
     federalIncomeTax (calculateIncomeTax netProfit deduction s) = 0) /\
  (forall inputs : TaxInputs,
     currentYearProfit inputs == 0 ->
     let r := calculateTaxes inputs in
     socialSecurityTax (selfEmploymentTax r) == 0 /\
     medicareTax (selfEmploymentTax r) == 0 /\
     additionalMedicareTax (selfEmploymentTax r) == 0 /\
     totalSETax (selfEmploymentTax r) == 0 /\
     seTaxDeduction (selfEmploymentTax r) == 0 /\
     taxableIncome (incomeTax r) ==
       Qmax 0 (0 - TAX_CONSTANTS_2025.standardDeduction (filingStatus inputs)) /\
     taxableIncome (incomeTax r) == 0 /\
     bracketDetails (incomeTax r) = [] /\
     federalIncomeTax (incomeTax r) = 0).
Proof.
  assert (Hzero : forall (netProfit deduction : Q) (s : FilingStatus),
     taxableIncome (calculateIncomeTax netProfit deduction s) == 0 ->
     bracketDetails (calculateIncomeTax netProfit deduction s) = [] /\
     federalIncomeTax (calculateIncomeTax netProfit deduction s) = 0).
  { intros netProfit deduction s H. unfold calculateIncomeTax in *. cbv zeta in *.
    cbn [taxableIncome] in H.
    rewrite bracket_loop_done; [split; reflexivity |].
    cbn [remainingIncome]. lra. }
  split; [exact Hzero |].
  intros [s tax agi profit] Hp r. cbn [currentYearProfit filingStatus] in *.
  assert (He : seTaxableEarnings profit == 0) by (unfold seTaxableEarnings; lra).
  assert (Hss : socialSecurityTax (selfEmploymentTax r) == 0).
  { simpl. unfold TAX_CONSTANTS_2025.socialSecurityWageBase,
      TAX_CONSTANTS_2025.socialSecurityRate.
    destruct (Q.min_spec (seTaxableEarnings profit) 176100) as [[_ H] | [? H]];
      rewrite H; lra. }
  assert (Hm : medicareTax (selfEmploymentTax r) == 0).
  { simpl. unfold TAX_CONSTANTS_2025.medicareRate. lra. }
  assert (Ha : additionalMedicareTax (selfEmploymentTax r) == 0).
  { simpl. unfold TAX_CONSTANTS_2025.additionalMedicareRate.
    match goal with |- Qmax ?a ?b * _ == _ =>
      destruct (Q.max_spec a b) as [[? H] | [_ H]]; rewrite H end.
    - destruct s; simpl in *; lra.
    - lra. }
  assert (Ht : totalSETax (selfEmploymentTax r) == 0).
  { change (totalSETax (selfEmploymentTax r))
      with (socialSecurityTax (selfEmploymentTax r) +
            medicareTax (selfEmploymentTax r) +
            additionalMedicareTax (selfEmploymentTax r)). lra. }
  assert (Hd : seTaxDeduction (selfEmploymentTax r) == 0).
  { change (seTaxDeduction (selfEmploymentTax r))
      with (totalSETax (selfEmploymentTax r) * 0.5). lra. }
  assert (Hmax : forall x y : Q, x == y -> Qmax 0 x == Qmax 0 y).
  { intros x y Hxy. now rewrite Hxy. }
  assert (Hti : taxableIncome (incomeTax r) ==
                Qmax 0 (0 - TAX_CONSTANTS_2025.standardDeduction s)).
  { change (taxableIncome (incomeTax r))
      with (Qmax 0 (profit - seTaxDeduction (selfEmploymentTax r) -
                    TAX_CONSTANTS_2025.standardDeduction s)).
    apply Hmax. lra. }
  assert (Hti0 : taxableIncome (incomeTax r) == 0).
  { rewrite Hti.
    destruct (Q.max_spec 0 (0 - TAX_CONSTANTS_2025.standardDeduction s))
      as [[? H] | [_ H]]; rewrite H; [| lra].
    destruct s; simpl in *; lra. }
  repeat match goal with |- _ /\ _ => split end; try assumption;
    apply (Hzero profit (seTaxDeduction (selfEmploymentTax r)) s Hti0).
Qed.

Lemma zero_boundary_witness :
  (taxableIncome (calculateIncomeTax 12000 847.77 single) == 0 /\
   bracketDetails (calculateIncomeTax 12000 847.77 single) = []) /\
  (currentYearProfit (mkTaxInputs married 5000 90000 0) == 0 /\
   seTaxDeduction
     (selfEmploymentTax (calculateTaxes (mkTaxInputs married 5000 90000 0))) == 0).
Proof.
  split; (split; [reflexivity |]).
  - apply (proj1 zero_boundary 12000 847.77 single). reflexivity.
  - apply (proj2 zero_boundary (mkTaxInputs married 5000 90000 0)). reflexivity.
Defined.

(** ** The parsing helper *)

Lemma strip_filter (value : string) :
  list_ascii_of_string (strip value) = filter kept (list_ascii_of_string value).
Proof.
  induction value as [| c rest IH]; simpl; [reflexivity |].
  destruct (kept c); simpl; now rewrite IH.
Qed.

Lemma span_digits_digit (c : ascii) (rest : string) :
  is_digit c = true -> fst (span_digits (String c rest)) <> [].
Proof.
  intros H. simpl. rewrite H. destruct (span_digits rest). discriminate.
Qed.

Lemma span_digits_other (c : ascii) (rest : string) :
  is_digit c = false -> span_digits (String c rest) = ([], String c rest).
Proof.
  intros H. simpl. now rewrite H.
Qed.

(** [parseFloat] gives [NaN] exactly on the strings that do not start
    with a number. *)
Lemma parseFloat_None (s : string) :
  parseFloat s = None <-> starts_number s = false.
Proof.
  unfold parseFloat, starts_number.
  destruct (read_sign s) as [negative body]. cbn [snd].
  destruct body as [| c rest].
  - simpl. tauto.
  - destruct (is_digit c) eqn:Hc.
    + pose proof (span_digits_digit c rest Hc) as Hne.
      destruct (span_digits (String c rest)) as [[| d ds] tl]; [now elim Hne |].
      simpl. split; discriminate.
    + rewrite (span_digits_other c rest Hc). cbn [read_fraction orb].
      destruct (Ascii.eqb c "."); cbn [andb]; [| tauto].
      destruct rest as [| d rest']; [simpl; tauto |].
      destruct (is_digit d) eqn:Hd.
      * pose proof (span_digits_digit d rest' Hd) as Hne.
        destruct (span_digits (String d rest')) as [[| e es] tl]; [now elim Hne |].
        simpl. split; discriminate.
      * rewrite (span_digits_other d rest' Hd). simpl. tauto.
Qed.

(** C9.  [parseCurrency] is a total function of its string: it removes
    every character other than a digit, the point and the minus sign,
    keeping the others in order; it returns what [parseFloat] reads from
    the remainder; and it returns 0 when that is [NaN], which is the
    case of every remainder that does not start with a number. *)
Theorem parseCurrency_total (value : string) :
  list_ascii_of_string (strip value) = filter kept (list_ascii_of_string value) /\
  (exists q : Q, parseCurrency value = q) /\
  (forall q : Q, parseFloat (strip value) = Some q -> parseCurrency value = q) /\
  (parseFloat (strip value) = None -> parseCurrency value = 0) /\
  (starts_number (strip value) = false -> parseCurrency value = 0).
Proof.
  split; [apply strip_filter |].
  split; [eexists; reflexivity |].
  unfold parseCurrency. repeat split.
  - intros q H. now rewrite H.
  - intros H. now rewrite H.
  - intros H. apply parseFloat_None in H. now rewrite H.
Qed.

Lemma parseCurrency_total_witness :
  (parseFloat (strip "$1,234.56 USD") = Some 1234.56 /\
   parseCurrency "$1,234.56 USD" = 1234.56) /\
  (starts_number (strip "n/a") = false /\ parseCurrency "n/a" = 0).
Proof.
  split; (split; [reflexivity |]).
  - apply (parseCurrency_total "$1,234.56 USD"). reflexivity.
  - apply (parseCurrency_total "n/a"). reflexivity.
Defined.

(** * Further properties of the calculation module *)

(** ** The bracket walk between two rates *)

Section RateBounds.

Variables lo hi : Q.
Hypothesis lo_nonneg : 0 <= lo.
Hypothesis lo_hi : lo <= hi.

Lemma entries_tax_upper (brackets : list Bracket.t) :
  Forall size_pos brackets -> rates_within lo hi brackets ->
  forall r : Q, 0 <= r -> sum_taxAtRate (entries brackets r) <= hi * r.
Proof.
  intros Hpos. induction Hpos as [| bracket rest Hb _ IH]; intros Hr r Hr0; simpl.
  - unfold sum_taxAtRate; simpl; nra.
  - inversion Hr as [| ? ? [Hlo Hhi] Hrest]; subst.
    destruct (Qleb r 0) eqn:Hle; [unfold sum_taxAtRate; simpl; nra |].
    apply Qleb_gt in Hle. rewrite sum_taxAtRate_cons. simpl.
    pose proof (ext_min_pos r bracket Hb Hle) as Ht.
    pose proof (ext_min_le r (bracketSize bracket)) as Htr.
    assert (Hrem : 0 <= r - ext_min r (bracketSize bracket)) by lra.
    specialize (IH Hrest _ Hrem).
    set (t := ext_min r (bracketSize bracket)) in *.
    set (T := sum_taxAtRate (entries rest (r - t))) in *.
    assert (t * Bracket.rate bracket <= t * hi) by (apply Qmult_le_l; lra).
    lra.
Qed.

Lemma entries_tax_lower (brackets : list Bracket.t) :
  Forall size_pos brackets -> rates_within lo hi brackets ->
  forall r : Q, 0 <= r ->
    lo * (r - leftover brackets r) <= sum_taxAtRate (entries brackets r).
Proof.
  intros Hpos. induction Hpos as [| bracket rest Hb _ IH]; intros Hr r Hr0; simpl.
  - unfold sum_taxAtRate; simpl; nra.
  - inversion Hr as [| ? ? [Hlo Hhi] Hrest]; subst.
    destruct (Qleb r 0) eqn:Hle; [unfold sum_taxAtRate; simpl; nra |].
    apply Qleb_gt in Hle. rewrite sum_taxAtRate_cons. simpl.
    pose proof (ext_min_pos r bracket Hb Hle) as Ht.
    pose proof (ext_min_le r (bracketSize bracket)) as Htr.
    assert (Hrem : 0 <= r - ext_min r (bracketSize bracket)) by lra.
    specialize (IH Hrest _ Hrem).
    set (t := ext_min r (bracketSize bracket)) in *.
    set (T := sum_taxAtRate (entries rest (r - t))) in *.
    set (L := leftover rest (r - t)) in *.
    assert (t * lo <= t * Bracket.rate bracket) by (apply Qmult_le_l; lra).
    lra.
Qed.

End RateBounds.

(** ** More on the 2025 tables and the income tax *)

Lemma brackets_rates_within (s : FilingStatus) :
  rates_within 0.10 0.37 (TAX_BRACKETS_2025 s).
Proof. destruct s; unfold rates_within; table_fact. Qed.

Lemma leftover_table (s : FilingStatus) (r : Q) :
  0 <= r -> leftover (TAX_BRACKETS_2025 s) r == 0.
Proof.
  intros Hr.
  pose proof (leftover_nonneg (TAX_BRACKETS_2025 s) r Hr).
  pose proof (leftover_unbounded _ (brackets_unbounded s) r).
  lra.
Qed.

Lemma entries_nonempty (brackets : list Bracket.t) (r : Q) :
  entries brackets r <> [] -> 0 < r.
Proof.
  destruct brackets as [| bracket rest]; simpl; [congruence |].
  destruct (Qleb r 0) eqn:Hr; [congruence |]. intros _. now apply Qleb_gt.
Qed.

Lemma ext_min_le_size (r : Q) (x : ext) : ext_le (ext_min r x) x.
Proof.
  destruct x as [s|]; simpl; [apply Q.le_min_r | exact I].
Qed.

Lemma ext_min_filled (r : Q) (x : ext) : ext_min r x < r -> ext_eq (ext_min r x) x.
Proof.
  destruct x as [s|]; simpl; intros H.
  - destruct (Q.min_spec r s) as [[_ Hm] | [_ Hm]]; rewrite Hm in *; lra.
  - lra.
Qed.

(** Entry [i] is made from bracket [i]; it holds at most what the
    bracket has room for, and exactly that when another entry follows. *)
Lemma entries_filled (brackets : list Bracket.t) :
  forall (r : Q) (i : nat) (d : BracketDetail),
    nth_error (entries brackets r) i = Some d ->
    exists b : Bracket.t,
      nth_error brackets i = Some b /\
      rate d = Bracket.rate b /\
      ext_le (taxableAtRate d) (bracketSize b) /\
      ((S i < List.length (entries brackets r))%nat ->
       ext_eq (taxableAtRate d) (bracketSize b)).
Proof.
  induction brackets as [| bracket rest IH]; intros r i d; simpl.
  - destruct i; discriminate.
  - destruct (Qleb r 0) eqn:Hr; [destruct i; discriminate |].
    destruct i as [| i]; simpl.
    + intros [= <-]. exists bracket. simpl.
      repeat split; [apply ext_min_le_size |].
      intros Hlen. apply ext_min_filled.
      assert (Hne : entries rest (r - ext_min r (bracketSize bracket)) <> []).
      { intros Heq. rewrite Heq in Hlen. simpl in Hlen. lia. }
      apply entries_nonempty in Hne. lra.
    + intros Hd. destruct (IH _ _ _ Hd) as (b & Hb & Hrate & Hle & Hfull).
      exists b. repeat split; try assumption.
      intros Hlen. apply Hfull. lia.
Qed.

Lemma entries_length (brackets : list Bracket.t) (r : Q) :
  (List.length (entries brackets r) <= List.length brackets)%nat.
Proof.
  revert r. induction brackets as [| bracket rest IH]; intros r; simpl; [lia |].
  destruct (Qleb r 0); simpl; [lia |].
  specialize (IH (r - ext_min r (bracketSize bracket))). lia.
Qed.

(** X1.  The bracket details follow the table: there are at most seven;
    entry [i] carries the rate of bracket [i] of the filing status's
    table; its amount is at most the bracket's size [max - min + 1]; and
    every entry but the last holds exactly that size. *)
Theorem bracket_details_fill_in_order (netProfit deduction : Q) (s : FilingStatus) :
  let r := calculateIncomeTax netProfit deduction s in
  (List.length (bracketDetails r) <= 7)%nat /\
  forall (i : nat) (d : BracketDetail),
    nth_error (bracketDetails r) i = Some d ->
    exists b : Bracket.t,
      nth_error (TAX_BRACKETS_2025 s) i = Some b /\
      rate d = Bracket.rate b /\
      ext_le (taxableAtRate d) (bracketSize b) /\
      ((S i < List.length (bracketDetails r))%nat ->
       ext_eq (taxableAtRate d) (bracketSize b)).
Proof.
  intros r.
  destruct (calculateIncomeTax_entries netProfit deduction s) as [Hd _].
  fold r in Hd. rewrite Hd. split.
  - pose proof (entries_length (TAX_BRACKETS_2025 s) (taxableIncome r)) as H.
    destruct s; exact H.
  - apply entries_filled.
Qed.


Lemma entries_nil (brackets : list Bracket.t) (r : Q) :
  brackets <> [] -> (entries brackets r = [] <-> r <= 0).
Proof.
  destruct brackets as [| bracket rest]; [congruence |]. intros _. simpl.
  destruct (Qleb r 0) eqn:Hr.
  - apply Qleb_le in Hr. tauto.
  - apply Qleb_gt in Hr. split; [discriminate | lra].
Qed.

(** X3.  There are bracket details exactly when there is taxable
    income, and federal income tax exactly then too: the list is empty
    if and only if the taxable income is 0, and the tax is 0 if and only
    if the taxable income is 0. *)
Theorem no_details_iff_no_income (netProfit deduction : Q) (s : FilingStatus) :
  let r := calculateIncomeTax netProfit deduction s in
  (bracketDetails r = [] <-> taxableIncome r == 0) /\
  (federalIncomeTax r == 0 <-> taxableIncome r == 0).
Proof.
  intros r.
  destruct (calculateIncomeTax_entries netProfit deduction s) as [Hd Ht].
  fold r in Hd, Ht.
  pose proof (taxableIncome_nonneg netProfit deduction s) as Hnn. fold r in Hnn.
  assert (Hlo : 0 <= 0.10) by (vm_compute; discriminate).
  assert (Hlh : 0.10 <= 0.37) by (vm_compute; discriminate).
  pose proof (entries_tax_lower 0.10 0.37 _ (brackets_size_pos s)
                (brackets_rates_within s) _ Hnn) as Hlow.
  pose proof (entries_tax_upper 0.10 0.37 Hlo Hlh _ (brackets_size_pos s)
                (brackets_rates_within s) _ Hnn) as Hupp.
  pose proof (leftover_table s _ Hnn) as L.
  rewrite <- Hd, <- Ht in Hlow, Hupp.
  split; split.
  - intros Hnil. rewrite Hd in Hnil.
    apply entries_nil in Hnil; [lra | destruct s; discriminate].
  - intros Hz. rewrite Hd. apply entries_nil; [destruct s; discriminate | lra].
  - intros Hz. nra.
  - intros Hz. nra.
Qed.

(** ** More on the self-employment tax *)

(** X4.  The additional Medicare tax starts at the threshold: it is 0
    while SE-taxable earnings are at most the filing status's threshold,
    and 0.9% of the excess, a positive amount, above it. *)
Theorem additional_medicare_threshold (s : FilingStatus) (netProfit : Q) :
  let r := calculateSelfEmploymentTax netProfit s in
  let threshold := TAX_CONSTANTS_2025.additionalMedicareThreshold s in
  (seTaxableEarnings netProfit <= threshold -> additionalMedicareTax r == 0) /\
  (threshold < seTaxableEarnings netProfit ->
   additionalMedicareTax r == (seTaxableEarnings netProfit - threshold) * 0.009 /\
   0 < additionalMedicareTax r).
Proof.
  cbv zeta. simpl. unfold TAX_CONSTANTS_2025.additionalMedicareRate.
  set (e := seTaxableEarnings netProfit).
  set (th := TAX_CONSTANTS_2025.additionalMedicareThreshold s).
  destruct (Q.max_spec 0 (e - th)) as [[Hlt Hm] | [Hge Hm]]; rewrite Hm;
    split; intros H; try split; lra.
Qed.

Lemma additional_medicare_threshold_witness :
  (seTaxableEarnings 200000 <= 200000 /\
   additionalMedicareTax (calculateSelfEmploymentTax 200000 single) == 0) /\
  (250000 < seTaxableEarnings 300000 /\
   additionalMedicareTax (calculateSelfEmploymentTax 300000 married) ==
     (seTaxableEarnings 300000 - 250000) * 0.009).
Proof.
  split; split.
  - vm_compute; discriminate.
  - apply (proj1 (additional_medicare_threshold single 200000)).
    vm_compute; discriminate.
  - vm_compute; reflexivity.
  - apply (proj2 (additional_medicare_threshold married 300000)).
    vm_compute; reflexivity.
Defined.

Lemma se_components_mono (s : FilingStatus) (a b : Q) :
  a <= b ->
  socialSecurityTax (calculateSelfEmploymentTax a s) <=
    socialSecurityTax (calculateSelfEmploymentTax b s) /\
  medicareTax (calculateSelfEmploymentTax a s) <=
    medicareTax (calculateSelfEmploymentTax b s) /\
  additionalMedicareTax (calculateSelfEmploymentTax a s) <=
    additionalMedicareTax (calculateSelfEmploymentTax b s).
Proof.
  intros Hab. simpl.
  unfold TAX_CONSTANTS_2025.socialSecurityRate, TAX_CONSTANTS_2025.medicareRate,
    TAX_CONSTANTS_2025.additionalMedicareRate,
    TAX_CONSTANTS_2025.socialSecurityWageBase.
  assert (He : seTaxableEarnings a <= seTaxableEarnings b)
    by (unfold seTaxableEarnings; lra).
  set (ea := seTaxableEarnings a) in *. set (eb := seTaxableEarnings b) in *.
  set (th := TAX_CONSTANTS_2025.additionalMedicareThreshold s).
  pose proof (Q.min_le_compat_r ea eb 176100 He) as Hmin.
  assert (Hmax : Qmax 0 (ea - th) <= Qmax 0 (eb - th))
    by (apply Q.max_le_compat_l; lra).
  repeat split; lra.
Qed.

(** X5.  More profit never lowers the self-employment tax: each of the
    three components, the total and the deduction are non-decreasing in
    the net profit, for either filing status. *)
Theorem se_tax_monotone (s : FilingStatus) (a b : Q) :
  a <= b ->
  let ra := calculateSelfEmploymentTax a s in
  let rb := calculateSelfEmploymentTax b s in
  socialSecurityTax ra <= socialSecurityTax rb /\
  medicareTax ra <= medicareTax rb /\
  additionalMedicareTax ra <= additionalMedicareTax rb /\
  totalSETax ra <= totalSETax rb /\
  seTaxDeduction ra <= seTaxDeduction rb.
Proof.
  intros Hab ra rb.
  destruct (se_components_mono s a b Hab) as (Hss & Hm & Ha).
  fold ra rb in Hss, Hm, Ha.
  assert (Ht : totalSETax ra <= totalSETax rb).
  { change (totalSETax ra)
      with (socialSecurityTax ra + medicareTax ra + additionalMedicareTax ra).
    change (totalSETax rb)
      with (socialSecurityTax rb + medicareTax rb + additionalMedicareTax rb).
    lra. }
  repeat split; try assumption.
  change (seTaxDeduction ra) with (totalSETax ra * 0.5).
  change (seTaxDeduction rb) with (totalSETax rb * 0.5). lra.
Qed.

Lemma se_tax_monotone_witness :
  150000 <= 250000 /\
  totalSETax (calculateSelfEmploymentTax 150000 married) <=
  totalSETax (calculateSelfEmploymentTax 250000 married).
Proof.
  split; [vm_compute; discriminate |].
  apply (se_tax_monotone married 150000 250000). vm_compute; discriminate.
Defined.

(** With non-negative profit the self-employment tax is between 2.9%
    and 16.2% of the SE-taxable earnings. *)
Lemma se_total_bounds (s : FilingStatus) (netProfit : Q) :
  0 <= netProfit ->
  seTaxableEarnings netProfit * 0.029 <=
    totalSETax (calculateSelfEmploymentTax netProfit s) /\
  totalSETax (calculateSelfEmploymentTax netProfit s) <=
    seTaxableEarnings netProfit * 0.162.
Proof.
  intros Hnp. simpl.
  unfold TAX_CONSTANTS_2025.socialSecurityRate, TAX_CONSTANTS_2025.medicareRate,
    TAX_CONSTANTS_2025.additionalMedicareRate,
    TAX_CONSTANTS_2025.socialSecurityWageBase.
  assert (He : 0 <= seTaxableEarnings netProfit) by (unfold seTaxableEarnings; lra).
  set (e := seTaxableEarnings netProfit) in *.
  assert (Hth : 0 <= TAX_CONSTANTS_2025.additionalMedicareThreshold s)
    by (destruct s; vm_compute; discriminate).
  set (th := TAX_CONSTANTS_2025.additionalMedicareThreshold s) in *.
  destruct (Q.min_spec e 176100) as [[? Hmin] | [? Hmin]];
  destruct (Q.max_spec 0 (e - th)) as [[? Hmax] | [? Hmax]];
    rewrite Hmin, Hmax; split; lra.
Qed.

(** X6.  A loss is passed on as it is: with a negative net profit the
    Social Security tax is 12.4% and the Medicare tax 2.9% of the
    negative SE-taxable earnings, with no floor at 0; the additional
    Medicare tax is 0; the total is the sum of the first two; and the
    total and the deduction are negative. *)
Theorem se_tax_of_a_loss (s : FilingStatus) (netProfit : Q) :
  netProfit < 0 ->
  let r := calculateSelfEmploymentTax netProfit s in
  socialSecurityTax r == netProfit * 0.9235 * 0.124 /\
  medicareTax r == netProfit * 0.9235 * 0.029 /\
  socialSecurityTax r < 0 /\
  medicareTax r < 0 /\
  additionalMedicareTax r == 0 /\
  totalSETax r == socialSecurityTax r + medicareTax r /\
  totalSETax r < 0 /\
  seTaxDeduction r < 0.
Proof.
  intros Hnp r.
  assert (He : seTaxableEarnings netProfit < 0) by (unfold seTaxableEarnings; lra).
  assert (Hss : socialSecurityTax r == netProfit * 0.9235 * 0.124).
  { simpl. unfold TAX_CONSTANTS_2025.socialSecurityRate,
      TAX_CONSTANTS_2025.socialSecurityWageBase.
    destruct (Q.min_spec (seTaxableEarnings netProfit) 176100) as [[? H] | [? H]];
      rewrite H; unfold seTaxableEarnings in *; lra. }
  assert (Hm : medicareTax r == netProfit * 0.9235 * 0.029).
  { simpl. unfold TAX_CONSTANTS_2025.medicareRate, seTaxableEarnings. lra. }
  assert (Ha : additionalMedicareTax r == 0).
  { simpl. unfold TAX_CONSTANTS_2025.additionalMedicareRate.
    assert (Hth : 0 <= TAX_CONSTANTS_2025.additionalMedicareThreshold s)
      by (destruct s; vm_compute; discriminate).
    destruct (Q.max_spec 0 (seTaxableEarnings netProfit -
                TAX_CONSTANTS_2025.additionalMedicareThreshold s))
      as [[? H] | [? H]]; rewrite H; lra. }
  assert (Ht : totalSETax r == socialSecurityTax r + medicareTax r).
  { change (totalSETax r)
      with (socialSecurityTax r + medicareTax r + additionalMedicareTax r). lra. }
  repeat split; try assumption; try lra.
  change (seTaxDeduction r) with (totalSETax r * 0.5). lra.
Qed.

Lemma se_tax_of_a_loss_witness :
  -10000 < 0 /\ totalSETax (calculateSelfEmploymentTax (-10000) single) < 0.
Proof.
  split; [reflexivity |].
  apply (se_tax_of_a_loss single (-10000)). reflexivity.
Defined.

(** ** More on the main calculation *)

Lemma calculateIncomeTax_zero (netProfit deduction : Q) (s : FilingStatus) :
  taxableIncome (calculateIncomeTax netProfit deduction s) == 0 ->
  bracketDetails (calculateIncomeTax netProfit deduction s) = [] /\
  federalIncomeTax (calculateIncomeTax netProfit deduction s) = 0.
Proof.
  intros H. unfold calculateIncomeTax in *. cbv zeta in *.
  cbn [taxableIncome] in H.
  rewrite bracket_loop_done; [split; reflexivity |].
  cbn [remainingIncome]. lra.
Qed.

Lemma income_tax_bounds (netProfit deduction : Q) (s : FilingStatus) :
  let r := calculateIncomeTax netProfit deduction s in
  0.10 * taxableIncome r <= federalIncomeTax r <= 0.37 * taxableIncome r.
Proof.
  intros r.
  destruct (calculateIncomeTax_entries netProfit deduction s) as [Hd Ht].
  fold r in Hd, Ht.
  pose proof (taxableIncome_nonneg netProfit deduction s) as Hnn. fold r in Hnn.
  assert (Hlo : 0 <= 0.10) by (vm_compute; discriminate).
  assert (Hlh : 0.10 <= 0.37) by (vm_compute; discriminate).
  pose proof (entries_tax_lower 0.10 0.37 _ (brackets_size_pos s)
                (brackets_rates_within s) _ Hnn) as Hlow.
  pose proof (entries_tax_upper 0.10 0.37 Hlo Hlh _ (brackets_size_pos s)
                (brackets_rates_within s) _ Hnn) as Hupp.
  pose proof (leftover_table s _ Hnn) as L.
  rewrite <- Hd, <- Ht in Hlow, Hupp. split; nra.
Qed.

(** The fields of a result, folded back on one another. *)
Lemma calculateTaxes_fields (inputs : TaxInputs) :
  let r := calculateTaxes inputs in
  selfEmploymentTax r =
    calculateSelfEmploymentTax (currentYearProfit inputs) (filingStatus inputs) /\
  incomeTax r =
    calculateIncomeTax (currentYearProfit inputs)
      (seTaxDeduction (selfEmploymentTax r)) (filingStatus inputs) /\
  taxableIncome (incomeTax r) =
    Qmax 0 (currentYearProfit inputs - seTaxDeduction (selfEmploymentTax r) -
            TAX_CONSTANTS_2025.standardDeduction (filingStatus inputs)) /\
  currentYearTotalTax r =
    totalSETax (selfEmploymentTax r) + federalIncomeTax (incomeTax r) /\
  currentYearAvoidanceMinimum r = currentYearTotalTax r * 0.9 /\
  safeHarborMinimum r = priorYearTax inputs * safeHarborMultiplier r /\
  requiredAnnualPayment r =
    Qmin (safeHarborMinimum r) (currentYearAvoidanceMinimum r) /\
  quarterlyPayment r = requiredAnnualPayment r / 4 /\
  isCurrentYearLower r =
    Qltb (currentYearAvoidanceMinimum r) (safeHarborMinimum r) /\
  savings r = Qabs (safeHarborMinimum r - currentYearAvoidanceMinimum r).
Proof. cbv zeta. repeat split. Qed.

Lemma safeHarborMultiplier_cases (inputs : TaxInputs) :
  (priorYearAGI inputs <= 150000 /\
   safeHarborMultiplier (calculateTaxes inputs) = 1.0) \/
  (150000 < priorYearAGI inputs /\
   safeHarborMultiplier (calculateTaxes inputs) = 1.1).
Proof.
  cbn [safeHarborMultiplier calculateTaxes]. unfold calculateSafeHarbor.
  cbn [SafeHarbor.multiplier].
  unfold TAX_CONSTANTS_2025.safeHarborHighIncomeThreshold.
  destruct (Qgtb (priorYearAGI inputs) 150000) eqn:H.
  - right. split; [now apply Qgtb_gt | reflexivity].
  - left. split; [now apply Qgtb_le | reflexivity].
Qed.

Lemma current_year_tax_bounds (inputs : TaxInputs) :
  0 <= currentYearProfit inputs ->
  let r := calculateTaxes inputs in
  taxableIncome (incomeTax r) <= currentYearProfit inputs /\
  0 <= currentYearTotalTax r /\
  currentYearTotalTax r <= 0.52 * currentYearProfit inputs.
Proof.
  intros Hp r.
  destruct (calculateTaxes_fields inputs)
    as (Hse & Hit & Hti & Htot & _). fold r in Hse, Hit, Hti, Htot.
  destruct (se_total_bounds (filingStatus inputs) _ Hp) as [Hlow Hupp].
  rewrite <- Hse in Hlow, Hupp.
  pose proof (income_tax_bounds (currentYearProfit inputs)
                (seTaxDeduction (selfEmploymentTax r)) (filingStatus inputs)) as Hb.
  cbv zeta in Hb. rewrite <- Hit in Hb.
  assert (Hd : seTaxDeduction (selfEmploymentTax r) ==
               totalSETax (selfEmploymentTax r) * 0.5).
  { rewrite Hse. reflexivity. }
  assert (Hsd : 0 <= TAX_CONSTANTS_2025.standardDeduction (filingStatus inputs))
    by (destruct (filingStatus inputs); vm_compute; discriminate).
  assert (He : seTaxableEarnings (currentYearProfit inputs) ==
               currentYearProfit inputs * 0.9235) by reflexivity.
  assert (Htile : taxableIncome (incomeTax r) <= currentYearProfit inputs).
  { rewrite Hti.
    match goal with |- Qmax 0 ?x <= _ =>
      destruct (Q.max_spec 0 x) as [[? Hm] | [? Hm]]; rewrite Hm end; lra. }
  rewrite Htot. repeat split; lra.
Qed.

(** X7.  The projected tax stays below the profit: with a
    non-negative current-year profit, the taxable income is at most the
    profit, and the total current-year tax is non-negative and at most
    52% of the profit. *)
Theorem total_tax_below_profit (inputs : TaxInputs) :
  0 <= currentYearProfit inputs ->
  let r := calculateTaxes inputs in
  taxableIncome (incomeTax r) <= currentYearProfit inputs /\
  0 <= currentYearTotalTax r /\
  currentYearTotalTax r <= 0.52 * currentYearProfit inputs.
Proof. exact (current_year_tax_bounds inputs). Qed.

Lemma total_tax_below_profit_witness :
  0 <= currentYearProfit scenarioA /\
  currentYearTotalTax (calculateTaxes scenarioA) <=
    0.52 * currentYearProfit scenarioA.
Proof.
  split; [vm_compute; discriminate |].
  apply (total_tax_below_profit scenarioA). vm_compute; discriminate.
Defined.

(** X8.  Valid inputs give payments that make sense: with a
    non-negative prior-year tax and a non-negative profit, the Safe
    Harbor minimum is between the prior-year tax and 110% of it, and the
    required annual payment and the quarterly payment are non-negative
    and no larger than either minimum. *)
Theorem payments_nonnegative (inputs : TaxInputs) :
  0 <= priorYearTax inputs -> 0 <= currentYearProfit inputs ->
  let r := calculateTaxes inputs in
  priorYearTax inputs <= safeHarborMinimum r /\
  safeHarborMinimum r <= 1.1 * priorYearTax inputs /\
  0 <= currentYearAvoidanceMinimum r /\
  0 <= requiredAnnualPayment r /\
  requiredAnnualPayment r <= safeHarborMinimum r /\
  requiredAnnualPayment r <= currentYearAvoidanceMinimum r /\
  0 <= quarterlyPayment r /\
  quarterlyPayment r <= requiredAnnualPayment r.
Proof.
  intros Hpt Hp r.
  destruct (calculateTaxes_fields inputs)
    as (_ & _ & _ & _ & Hav & Hsh & Hreq & Hq & _). fold r in Hav, Hsh, Hreq, Hq.
  destruct (current_year_tax_bounds inputs Hp) as (_ & Htot & _). fold r in Htot.
  assert (Hav0 : 0 <= currentYearAvoidanceMinimum r) by (rewrite Hav; lra).
  assert (Hshb : priorYearTax inputs <= safeHarborMinimum r /\
                 safeHarborMinimum r <= 1.1 * priorYearTax inputs).
  { rewrite Hsh.
    destruct (safeHarborMultiplier_cases inputs) as [[_ Hm] | [_ Hm]];
      fold r in Hm; rewrite Hm; split; lra. }
  destruct Hshb as [Hsh1 Hsh2].
  assert (Hq4 : quarterlyPayment r * 4 == requiredAnnualPayment r).
  { rewrite Hq, Qmult_comm. apply Qmult_div_r. discriminate. }
  assert (Hr : 0 <= requiredAnnualPayment r /\
               requiredAnnualPayment r <= safeHarborMinimum r /\
               requiredAnnualPayment r <= currentYearAvoidanceMinimum r).
  { rewrite Hreq.
    destruct (Q.min_spec (safeHarborMinimum r) (currentYearAvoidanceMinimum r))
      as [[? Hm] | [? Hm]]; rewrite Hm; repeat split; lra. }
  destruct Hr as (Hr0 & Hr1 & Hr2).
  repeat split; try assumption; lra.
Qed.

Lemma payments_nonnegative_witness :
  0 <= priorYearTax scenarioA /\ 0 <= currentYearProfit scenarioA /\
  0 <= requiredAnnualPayment (calculateTaxes scenarioA) /\
  0 <= quarterlyPayment (calculateTaxes scenarioA).
Proof.
  assert (H1 : 0 <= priorYearTax scenarioA) by (vm_compute; discriminate).
  assert (H2 : 0 <= currentYearProfit scenarioA) by (vm_compute; discriminate).
  destruct (payments_nonnegative scenarioA H1 H2)
    as (_ & _ & _ & Hr & _ & _ & Hq & _).
  repeat split; assumption.
Defined.

(** X9.  What [savings] measures.  For every input the savings are
    non-negative; they are the dearer of the two minimums less the
    required annual payment; they are 0 exactly when the two minimums
    are equal; and the required payment is the current-year minimum
    when [isCurrentYearLower] holds and the Safe Harbor minimum when it
    does not. *)
Theorem savings_is_the_gap (inputs : TaxInputs) :
  let r := calculateTaxes inputs in
  0 <= savings r /\
  savings r ==
    Qmax (safeHarborMinimum r) (currentYearAvoidanceMinimum r) -
    requiredAnnualPayment r /\
  (savings r == 0 <-> safeHarborMinimum r == currentYearAvoidanceMinimum r) /\
  requiredAnnualPayment r ==
    (if isCurrentYearLower r then currentYearAvoidanceMinimum r
     else safeHarborMinimum r).
Proof.
  intros r.
  destruct (calculateTaxes_fields inputs)
    as (_ & _ & _ & _ & _ & _ & Hreq & _ & Hlow & Hsav).
  fold r in Hreq, Hlow, Hsav. rewrite Hreq, Hsav, Hlow.
  set (sh := safeHarborMinimum r). set (av := currentYearAvoidanceMinimum r).
  assert (Habs : (0 <= sh - av /\ Qabs (sh - av) == sh - av) \/
                 (sh - av <= 0 /\ Qabs (sh - av) == - (sh - av))).
  { destruct (Qlt_le_dec (sh - av) 0) as [H | H].
    - right. split; [lra | apply Qabs_neg; lra].
    - left. split; [assumption | now apply Qabs_pos]. }
  destruct (Qltb av sh) eqn:Hlt;
    [apply Qltb_lt in Hlt | apply Qltb_ge in Hlt];
    destruct (Q.min_spec sh av) as [[? Hmin] | [? Hmin]];
    destruct (Q.max_spec sh av) as [[? Hmax] | [? Hmax]];
    destruct Habs as [[? Ha] | [? Ha]];
    rewrite Hmin, Hmax, Ha; repeat split; intros; lra.
Qed.

Lemma se_tax_of_a_loss_facts (s : FilingStatus) (netProfit : Q) :
  netProfit < 0 ->
  totalSETax (calculateSelfEmploymentTax netProfit s) ==
    netProfit * 0.9235 * 0.153 /\
  seTaxDeduction (calculateSelfEmploymentTax netProfit s) ==
    netProfit * 0.9235 * 0.153 * 0.5.
Proof.
  intros Hnp. simpl.
  unfold TAX_CONSTANTS_2025.socialSecurityRate, TAX_CONSTANTS_2025.medicareRate,
    TAX_CONSTANTS_2025.additionalMedicareRate,
    TAX_CONSTANTS_2025.socialSecurityWageBase,
    TAX_CONSTANTS_2025.seTaxDeductionRate.
  assert (He : seTaxableEarnings netProfit == netProfit * 0.9235) by reflexivity.
  assert (Hth : 0 <= TAX_CONSTANTS_2025.additionalMedicareThreshold s)
    by (destruct s; vm_compute; discriminate).
  set (e := seTaxableEarnings netProfit) in *.
  set (th := TAX_CONSTANTS_2025.additionalMedicareThreshold s) in *.
  destruct (Q.min_spec e 176100) as [[? Hmin] | [? Hmin]];
  destruct (Q.max_spec 0 (e - th)) as [[? Hmax] | [? Hmax]];
    rewrite Hmin, Hmax; split; lra.
Qed.

(** X10.  A loss makes the required payment negative: with a negative
    current-year profit and a non-negative prior-year tax there is no
    taxable income and no federal income tax, the total current-year
    tax is the self-employment tax, which is negative, the current-year
    method is the lower one, and the required annual payment is 90% of
    that total, a negative amount. *)
Theorem calculateTaxes_of_a_loss (inputs : TaxInputs) :
  currentYearProfit inputs < 0 -> 0 <= priorYearTax inputs ->
  let r := calculateTaxes inputs in
  taxableIncome (incomeTax r) == 0 /\
  bracketDetails (incomeTax r) = [] /\
  federalIncomeTax (incomeTax r) = 0 /\
  currentYearTotalTax r == totalSETax (selfEmploymentTax r) /\
  currentYearTotalTax r < 0 /\
  isCurrentYearLower r = true /\
  requiredAnnualPayment r == currentYearTotalTax r * 0.9 /\
  requiredAnnualPayment r < 0.
Proof.
  intros Hp Hpt r.
  destruct (calculateTaxes_fields inputs)
    as (Hse & Hit & Hti & Htot & Hav & Hsh & Hreq & _ & Hlow & _).
  fold r in Hse, Hit, Hti, Htot, Hav, Hsh, Hreq, Hlow.
  destruct (se_tax_of_a_loss_facts (filingStatus inputs) _ Hp) as (Ht & Hd).
  rewrite <- Hse in Ht, Hd.
  assert (Hsd : 0 <= TAX_CONSTANTS_2025.standardDeduction (filingStatus inputs))
    by (destruct (filingStatus inputs); vm_compute; discriminate).
  assert (Hti0 : taxableIncome (incomeTax r) == 0).
  { rewrite Hti.
    match goal with |- Qmax 0 ?x == _ =>
      destruct (Q.max_spec 0 x) as [[? Hm] | [? Hm]]; rewrite Hm end; lra. }
  assert (Hz : bracketDetails (incomeTax r) = [] /\ federalIncomeTax (incomeTax r) = 0).
  { rewrite Hit. apply calculateIncomeTax_zero. rewrite <- Hit. exact Hti0. }
  destruct Hz as [Hz1 Hz2].
  assert (Htot' : currentYearTotalTax r == totalSETax (selfEmploymentTax r)).
  { rewrite Htot, Hz2. lra. }
  assert (Hsh0 : 0 <= safeHarborMinimum r).
  { rewrite Hsh.
    destruct (safeHarborMultiplier_cases inputs) as [[_ Hm] | [_ Hm]];
      fold r in Hm; rewrite Hm; lra. }
  assert (Hav' : currentYearAvoidanceMinimum r == currentYearTotalTax r * 0.9)
    by (rewrite Hav; reflexivity).
  assert (Hreq' : requiredAnnualPayment r == currentYearTotalTax r * 0.9).
  { rewrite Hreq.
    destruct (Q.min_spec (safeHarborMinimum r) (currentYearAvoidanceMinimum r))
      as [[? Hm] | [? Hm]]; rewrite Hm; lra. }
  repeat split; try assumption.
  - lra.
  - rewrite Hlow. apply Qltb_lt. lra.
  - lra.
Qed.

Lemma calculateTaxes_of_a_loss_witness :
  let inputs := mkTaxInputs single 25000 140000 (-10000) in
  currentYearProfit inputs < 0 /\ 0 <= priorYearTax inputs /\
  requiredAnnualPayment (calculateTaxes inputs) < 0.
Proof.
  cbv zeta. split; [reflexivity |]. split; [vm_compute; discriminate |].
  apply (calculateTaxes_of_a_loss (mkTaxInputs single 25000 140000 (-10000)));
    [reflexivity | vm_compute; discriminate].
Defined.

(** ** The storage *)

Lemma removeItem_many (keys : list string) :
  forall st : Storage,
    fold_left (fun st' key => removeItem key st') keys st =
    filter (fun kv => negb (existsb (String.eqb (fst kv)) keys)) st.
Proof.
  induction keys as [| key keys IH]; intros st; simpl.
  - induction st as [| kv st IHst]; simpl; [reflexivity | now rewrite <- IHst].
  - rewrite IH. unfold removeItem.
    induction st as [| kv st IHst]; simpl; [reflexivity |].
    destruct (String.eqb (fst kv) key); simpl; [exact IHst |].
    destruct (existsb (String.eqb (fst kv)) keys); simpl; [exact IHst |].
    now rewrite IHst.
Qed.

Lemma existsb_prefixed_keys (key : string) (keys : list string) :
  existsb (String.eqb key)
    (filter (fun k => prefix STORAGE_KEY_PREFIX k) keys) =
  prefix STORAGE_KEY_PREFIX key && existsb (String.eqb key) keys.
Proof.
  induction keys as [| k keys IH]; simpl; [now rewrite andb_false_r |].
  destruct (prefix STORAGE_KEY_PREFIX k) eqn:Hk; simpl; rewrite IH.
  - destruct (String.eqb key k) eqn:He; simpl.
    + apply String.eqb_eq in He. subst k. now rewrite Hk.
    + reflexivity.
  - destruct (String.eqb key k) eqn:He; simpl; [| reflexivity].
    apply String.eqb_eq in He. subst k. now rewrite Hk.
Qed.

Lemma clear_is_filter (st : Storage) :
  clearTaxCalculatorStorage st =
  filter (fun kv => negb (prefix STORAGE_KEY_PREFIX (fst kv))) st.
Proof.
  unfold clearTaxCalculatorStorage. rewrite removeItem_many.
  apply filter_ext_in. intros kv Hin. f_equal.
  rewrite existsb_prefixed_keys.
  assert (Hex : existsb (String.eqb (fst kv)) (map fst st) = true).
  { apply existsb_exists. exists (fst kv). split;
      [now apply in_map | apply String.eqb_refl]. }
  rewrite Hex. apply andb_true_r.
Qed.

Lemma getItem_filter (p : string -> bool) (key : string) (st : Storage) :
  getItem key (filter (fun kv => p (fst kv)) st) =
  if p key then getItem key st else None.
Proof.
  unfold getItem. induction st as [| kv st IH]; simpl.
  - now destruct (p key).
  - destruct (String.eqb (fst kv) key) eqn:He.
    + apply String.eqb_eq in He. subst key.
      destruct (p (fst kv)) eqn:Hp; simpl.
      * now rewrite String.eqb_refl.
      * first [exact IH | rewrite IH; now rewrite ?Hp].
    + destruct (p (fst kv)); simpl; [rewrite He |]; exact IH.
Qed.

Lemma prefix_app (p s : string) : prefix p (p ++ s)%string = true.
Proof.
  induction p as [| c p IH]; simpl; [now destruct s |].
  destruct (ascii_dec c c); [exact IH | congruence].
Qed.

(** X11.  [clearTaxCalculatorStorage] removes the calculator's entries
    and nothing else: what remains are the entries whose key does not
    start with the prefix, in their order; afterwards a key with the
    prefix is absent, in particular every key the hook writes under,
    and any other key reads as before. *)
Theorem clear_removes_only_prefixed (st : Storage) :
  clearTaxCalculatorStorage st =
    filter (fun kv => negb (prefix STORAGE_KEY_PREFIX (fst kv))) st /\
  (forall key : string,
     getItem key (clearTaxCalculatorStorage st) =
     if prefix STORAGE_KEY_PREFIX key then None else getItem key st) /\
  (forall key value : string,
     getItem (fullKey key)
       (clearTaxCalculatorStorage (setItem (fullKey key) value st)) = None).
Proof.
  split; [apply clear_is_filter |]. split.
  - intros key. rewrite clear_is_filter.
    rewrite (getItem_filter (fun k => negb (prefix STORAGE_KEY_PREFIX k))).
    now destruct (prefix STORAGE_KEY_PREFIX key).
  - intros key value. rewrite clear_is_filter.
    rewrite (getItem_filter (fun k => negb (prefix STORAGE_KEY_PREFIX k))).
    unfold fullKey. now rewrite prefix_app.
Qed.

(** ** The calculator page *)

Lemma is_digit_range (c : ascii) :
  is_digit c = true <-> (48 <= nat_of_ascii c <= 57)%nat.
Proof.
  unfold is_digit. rewrite andb_true_iff, !Nat.leb_le. tauto.
Qed.

Lemma digit_not_white_space (c : ascii) :
  is_digit c = true -> is_white_space c = false.
Proof.
  rewrite is_digit_range. intros H. unfold is_white_space.
  repeat rewrite orb_false_iff. rewrite andb_false_iff, !Nat.leb_gt, !Nat.eqb_neq.
  lia.
Qed.

Lemma digit_not_sign (c : ascii) :
  is_digit c = true -> Ascii.eqb c "-" = false /\ Ascii.eqb c "+" = false.
Proof.
  intros H. split.
  - destruct (Ascii.eqb_spec c "-"); [subst; discriminate | reflexivity].
  - destruct (Ascii.eqb_spec c "+"); [subst; discriminate | reflexivity].
Qed.

Lemma digit_kept (c : ascii) : is_digit c = true -> kept c = true.
Proof. intros H. unfold kept. now rewrite H. Qed.

Lemma handleChange_all_digits (text : string) :
  all_digits (handleChange text) = true.
Proof.
  induction text as [| c rest IH]; simpl; [reflexivity |].
  destruct (is_digit c) eqn:Hc; simpl; [now rewrite Hc |]; exact IH.
Qed.

Lemma span_digits_all (s : string) :
  all_digits s = true ->
  snd (span_digits s) = EmptyString /\
  (s <> EmptyString -> fst (span_digits s) <> []).
Proof.
  induction s as [| c rest IH]; simpl; [intros _; split; congruence |].
  intros H. apply andb_true_iff in H. destruct H as [Hc Hrest].
  rewrite Hc. destruct (IH Hrest) as [Hsnd _].
  destruct (span_digits rest) as [ds tl]. simpl in *. split; [exact Hsnd | discriminate].
Qed.

Lemma span_digits_nonneg (s : string) :
  Forall (fun d => (0 <= d)%Z) (fst (span_digits s)).
Proof.
  induction s as [| c rest IH]; simpl; [constructor |].
  destruct (is_digit c); [| constructor].
  destruct (span_digits rest) as [ds tl]. simpl in *.
  constructor; [lia | exact IH].
Qed.

Lemma digits_value_nonneg (ds : list Z) :
  Forall (fun d => (0 <= d)%Z) ds -> (0 <= digits_value ds)%Z.
Proof.
  unfold digits_value.
  assert (H : forall acc : Z, (0 <= acc)%Z ->
            Forall (fun d => (0 <= d)%Z) ds ->
            (0 <= fold_left (fun a d => (10 * a + d)%Z) ds acc)%Z).
  { induction ds as [| d ds IH]; intros acc Hacc Hds; cbn [fold_left];
      [exact Hacc |].
    inversion Hds; subst. apply IH; [lia | assumption]. }
  intros Hds. apply H; [lia | exact Hds].
Qed.

(** On a string of digits [parseInt] reads all of it, as a
    non-negative number. *)
Lemma parseInt_all_digits (s : string) :
  all_digits s = true ->
  parseInt s =
    match fst (span_digits s) with
    | [] => None
    | ds => Some (1 * digits_value ds)%Z
    end.
Proof.
  intros H. unfold parseInt. destruct s as [| c rest]; [reflexivity |].
  simpl in H. apply andb_true_iff in H. destruct H as [Hc _].
  cbn [trim_start]. rewrite (digit_not_white_space c Hc).
  destruct (digit_not_sign c Hc) as [Hm Hp]. now rewrite Hm, Hp.
Qed.

Lemma or_zero_parseInt_nonneg (s : string) :
  all_digits s = true -> (0 <= or_zero (parseInt s))%Z.
Proof.
  intros H. rewrite (parseInt_all_digits s H).
  pose proof (digits_value_nonneg _ (span_digits_nonneg s)) as Hv.
  revert Hv. destruct (fst (span_digits s)); cbn [or_zero]; lia.
Qed.

Lemma strip_all_digits (s : string) : all_digits s = true -> strip s = s.
Proof.
  induction s as [| c rest IH]; simpl; [reflexivity |].
  intros H. apply andb_true_iff in H. destruct H as [Hc Hrest].
  now rewrite (digit_kept c Hc), IH.
Qed.

Lemma inject_Z_nonneg (z : Z) : (0 <= z)%Z -> 0 <= inject_Z z.
Proof.
  intros H. change 0 with (inject_Z 0). now rewrite <- Zle_Qle.
Qed.

Lemma payments_bounds (inputs : TaxInputs) :
  0 <= priorYearTax inputs -> 0 <= currentYearProfit inputs ->
  let r := calculateTaxes inputs in
  0 <= requiredAnnualPayment r /\ 0 <= quarterlyPayment r.
Proof.
  intros Hpt Hp r.
  destruct (calculateTaxes_fields inputs)
    as (_ & _ & _ & _ & Hav & Hsh & Hreq & Hq & _). fold r in Hav, Hsh, Hreq, Hq.
  destruct (current_year_tax_bounds inputs Hp) as (_ & Htot & _). fold r in Htot.
  assert (Hav0 : 0 <= currentYearAvoidanceMinimum r) by (rewrite Hav; lra).
  assert (Hsh0 : 0 <= safeHarborMinimum r).
  { rewrite Hsh.
    destruct (safeHarborMultiplier_cases inputs) as [[_ Hm] | [_ Hm]];
      fold r in Hm; rewrite Hm; lra. }
  assert (Hq4 : quarterlyPayment r * 4 == requiredAnnualPayment r).
  { rewrite Hq, Qmult_comm. apply Qmult_div_r. discriminate. }
  assert (Hr : 0 <= requiredAnnualPayment r).
  { rewrite Hreq.
    destruct (Q.min_spec (safeHarborMinimum r) (currentYearAvoidanceMinimum r))
      as [[? Hm] | [? Hm]]; rewrite Hm; lra. }
  split; lra.
Qed.

(** X13.  On what an amount box stores, the page's parsing and
    [parseCurrency] agree: for the digits of any typed text,
    [parseCurrency] returns the number [parseInt(.., 10) || 0] gives. *)
Theorem parseCurrency_agrees_with_parseInt (typed : string) :
  parseCurrency (handleChange typed) =
  inject_Z (or_zero (parseInt (handleChange typed))).
Proof.
  pose proof (handleChange_all_digits typed) as Hall.
  set (s := handleChange typed) in *.
  unfold parseCurrency. rewrite (strip_all_digits s Hall).
  rewrite (parseInt_all_digits s Hall).
  unfold parseFloat.
  assert (Hsign : read_sign s = (false, s)).
  { destruct s as [| c rest]; [reflexivity |]. simpl in Hall.
    apply andb_true_iff in Hall. destruct Hall as [Hc _].
    simpl. now rewrite (proj1 (digit_not_sign c Hc)). }
  rewrite Hsign.
  destruct (span_digits_all s Hall) as [Hsnd _].
  destruct (span_digits s) as [ds tl]. simpl in Hsnd. subst tl.
  cbn [read_fraction fst]. destruct ds as [| d ds]; [reflexivity |].
  cbn [List.length Z.of_nat Z.pow Z.to_pos]. rewrite app_nil_r.
  unfold inject_Z. cbn [or_zero]. now rewrite Z.mul_1_l.
Qed.

(** X14.  One recommendation, the same everywhere.  For the result of
    any calculation exactly one of the two cards is marked recommended;
    the marked card shows the required annual payment; the summary
    document names Safe Harbor exactly when the page marks the Safe
    Harbor card, and the amount it recommends is the required annual
    payment; on a tie it is Safe Harbor that is recommended. *)
Theorem one_recommendation (inputs : TaxInputs) :
  let r := calculateTaxes inputs in
  snd (currentYearCard r) = negb (snd (safeHarborCard r)) /\
  (snd (currentYearCard r) = true ->
   fst (currentYearCard r) == requiredAnnualPayment r) /\
  (snd (safeHarborCard r) = true ->
   fst (safeHarborCard r) == requiredAnnualPayment r) /\
  (recommendedOption r = "Safe Harbor"%string <->
   isSafeHarborRecommended (Some r) = true) /\
  recommendedAmount r == requiredAnnualPayment r /\
  (currentYearAvoidanceMinimum r == safeHarborMinimum r ->
   isSafeHarborRecommended (Some r) = true).
Proof.
  intros r.
  destruct (calculateTaxes_fields inputs)
    as (_ & _ & _ & _ & _ & _ & Hreq & _ & Hlow & _). fold r in Hreq, Hlow.
  unfold currentYearCard, safeHarborCard, recommendedOption, recommendedAmount,
    isSafeHarborRecommended. cbn [fst snd].
  rewrite Hreq, Hlow.
  set (sh := safeHarborMinimum r). set (av := currentYearAvoidanceMinimum r).
  destruct (Q.min_spec sh av) as [[Hc Hmin] | [Hc Hmin]]; rewrite Hmin;
    destruct (Qltb av sh) eqn:Hlt;
    try (apply Qltb_lt in Hlt); try (apply Qltb_ge in Hlt);
    cbn [negb]; repeat split; intros; try discriminate; try reflexivity; lra.
Qed.

Lemma one_recommendation_witness :
  let r := calculateTaxes scenarioA in
  snd (safeHarborCard r) = true /\
  fst (safeHarborCard r) == requiredAnnualPayment r.
Proof.
  cbv zeta. split; [reflexivity |].
  destruct (one_recommendation scenarioA) as (_ & _ & Hcard & _).
  apply Hcard. reflexivity.
Defined.

(** X15.  The percentage shown for the Safe Harbor multiplier is 110
    when the prior-year AGI is above 150000, the case the explanation
    and the summary document call high income, and 100 otherwise. *)
Theorem multiplier_percent_shown (inputs : TaxInputs) :
  multiplierPercent (calculateTaxes inputs) =
  if isHighIncome (priorYearAGI inputs) then 110%Z else 100%Z.
Proof.
  unfold multiplierPercent, isHighIncome.
  cbn [safeHarborMultiplier calculateTaxes]. unfold calculateSafeHarbor.
  cbn [SafeHarbor.multiplier].
  destruct (Qgtb (priorYearAGI inputs)
              TAX_CONSTANTS_2025.safeHarborHighIncomeThreshold); reflexivity.
Qed.

(** X16.  The penalty comparison.  It is shown unless the prior-year
    tax is 0.  Its worst-case underpayment is 0 when the Safe Harbor
    minimum covers the projected tax and their difference otherwise;
    its potential penalty is about 4% of that underpayment, between
    3.9% and 4.1% of it; and its cash-flow saving is the calculation's
    [savings] when Safe Harbor is the recommended method and 0 when the
    current-year method is. *)
Theorem penalty_comparison_figures (inputs : TaxInputs) :
  let r := calculateTaxes inputs in
  (PenaltySavingsComparison r (priorYearTax inputs) = None <->
   priorYearTax inputs == 0) /\
  forall c : PenaltyComparison,
    PenaltySavingsComparison r (priorYearTax inputs) = Some c ->
    0 <= worstCaseUnderpayment c /\
    (currentYearTotalTax r <= safeHarborMinimum r -> worstCaseUnderpayment c == 0) /\
    (safeHarborMinimum r <= currentYearTotalTax r ->
     worstCaseUnderpayment c == currentYearTotalTax r - safeHarborMinimum r) /\
    0.039 * worstCaseUnderpayment c <= potentialPenalty c /\
    potentialPenalty c <= 0.041 * worstCaseUnderpayment c /\
    cashFlowSavings c == (if isCurrentYearLower r then 0 else savings r).
Proof.
  intros r.
  destruct (calculateTaxes_fields inputs)
    as (_ & _ & _ & _ & _ & _ & _ & _ & Hlow & Hsav). fold r in Hlow, Hsav.
  clearbody r. unfold PenaltySavingsComparison. cbv zeta.
  destruct (Qeq_bool (priorYearTax inputs) 0) eqn:Hz.
  - apply Qeq_bool_iff in Hz. split; [tauto | discriminate].
  - split.
    + split; [discriminate |]. intros H. apply Qeq_bool_iff in H. congruence.
    + intros c [= <-]. cbn [worstCaseUnderpayment potentialPenalty cashFlowSavings].
      rewrite Hlow, Hsav.
      set (tot := currentYearTotalTax r).
      set (sh := safeHarborMinimum r). set (av := currentYearAvoidanceMinimum r).
      assert (Hpen : 0.08 / 12 * (2 * 3) == 0.04) by reflexivity.
      assert (Habs : (0 <= sh - av /\ Qabs (sh - av) == sh - av) \/
                     (sh - av <= 0 /\ Qabs (sh - av) == - (sh - av))).
      { destruct (Qlt_le_dec (sh - av) 0) as [H | H].
        - right. split; [lra | apply Qabs_neg; lra].
        - left. split; [assumption | now apply Qabs_pos]. }
      assert (Hcash : (if Qgtb (av - sh) 0 then av - sh else 0) ==
                      (if Qltb av sh then 0 else Qabs (sh - av))).
      { destruct (Qgtb (av - sh) 0) eqn:Hg;
          [apply Qgtb_gt in Hg | apply Qgtb_le in Hg];
          destruct (Qltb av sh) eqn:Hl;
          [apply Qltb_lt in Hl | apply Qltb_ge in Hl
          | apply Qltb_lt in Hl | apply Qltb_ge in Hl];
          destruct Habs as [[? Ha] | [? Ha]]; try rewrite Ha; lra. }
      pose proof (Q.max_spec 0 (tot - sh)) as Hmax.
      set (w := Qmax 0 (tot - sh)) in *.
      assert (Hw : w * (0.08 / 12) * (2 * 3) == 0.04 * w)
        by (rewrite <- Qmult_assoc, Hpen; lra).
      destruct Hmax as [[? Hmax] | [? Hmax]];
        repeat split; intros; try exact Hcash; try rewrite Hw; lra.
Qed.

Lemma penalty_comparison_figures_witness :
  exists c : PenaltyComparison,
    PenaltySavingsComparison (calculateTaxes scenarioA) (priorYearTax scenarioA) =
      Some c /\
    potentialPenalty c <= 0.041 * worstCaseUnderpayment c /\
    cashFlowSavings c == savings (calculateTaxes scenarioA).
Proof.
  eexists. split; [reflexivity |].
  destruct (proj2 (penalty_comparison_figures scenarioA) _ eq_refl)
    as (_ & _ & _ & _ & Hp & Hc).
  split; [exact Hp | exact Hc].
Defined.

(** ** Formatting and parsing back *)

Lemma span_digits_uint (d : Decimal.uint) :
  span_digits (string_of_list_ascii (uint_chars d)) = (uint_vals d, EmptyString).
Proof.
  induction d as [| d IH | d IH | d IH | d IH | d IH | d IH | d IH | d IH | d IH | d IH];
    [reflexivity | ..];
    cbn [uint_chars uint_vals string_of_list_ascii span_digits];
    change (is_digit _) with true; cbv iota; rewrite IH; reflexivity.
Qed.

Lemma of_uint_acc_fold (d : Decimal.uint) :
  forall acc : positive,
    Z.pos (Pos.of_uint_acc d acc) =
    fold_left (fun a x => (10 * a + x)%Z) (uint_vals d) (Z.pos acc).
Proof.
  induction d as [| d IH | d IH | d IH | d IH | d IH | d IH | d IH | d IH | d IH | d IH];
    intros acc; cbn [Pos.of_uint_acc uint_vals fold_left];
    [reflexivity | ..]; rewrite IH; f_equal; lia.
Qed.

Lemma of_uint_value (d : Decimal.uint) :
  Z.of_N (N.of_uint d) = digits_value (uint_vals d).
Proof.
  unfold N.of_uint, digits_value.
  induction d as [| d IH | d IH | d IH | d IH | d IH | d IH | d IH | d IH | d IH | d IH];
    cbn [Pos.of_uint uint_vals fold_left];
    [reflexivity | exact IH | ..];
    cbn [Z.of_N]; rewrite of_uint_acc_fold; f_equal.
Qed.

Lemma uint_chars_digits (d : Decimal.uint) :
  Forall (fun c => is_digit c = true) (uint_chars d).
Proof.
  induction d; cbn [uint_chars]; constructor; (reflexivity || assumption).
Qed.

Lemma decimal_digits (n : N) : Forall (fun c => is_digit c = true) (decimal n).
Proof. apply uint_chars_digits. Qed.

Lemma to_uint_nonnil (n : N) : N.to_uint n <> Decimal.Nil.
Proof.
  destruct n as [| p]; [discriminate | apply Unsigned.to_uint_nonnil].
Qed.

Lemma filter_kept_digits (l : list ascii) :
  Forall (fun c => is_digit c = true) l -> filter kept l = l.
Proof.
  induction 1 as [| c l Hc _ IH]; simpl; [reflexivity |].
  now rewrite (digit_kept c Hc), IH.
Qed.

(** Removing the commas undoes the grouping. *)
Lemma filter_kept_group3_rev (n : nat) :
  forall l : list ascii,
    (List.length l <= n)%nat ->
    Forall (fun c => is_digit c = true) l ->
    filter kept (group3_rev l) = l.
Proof.
  induction n as [| n IH]; intros l Hlen Hl.
  - destruct l; [reflexivity | simpl in Hlen; lia].
  - destruct l as [| a [| b [| c [| d rest]]]];
      try (cbn [group3_rev]; now apply filter_kept_digits).
    change (group3_rev (a :: b :: c :: d :: rest))
      with (a :: b :: c :: ","%char :: group3_rev (d :: rest)).
    inversion Hl as [| ? ? Ha Hl1]; subst.
    inversion Hl1 as [| ? ? Hb Hl2]; subst.
    inversion Hl2 as [| ? ? Hc Hl3]; subst.
    cbn [filter]. rewrite (digit_kept a Ha), (digit_kept b Hb), (digit_kept c Hc).
    change (kept ",") with false. cbv iota.
    rewrite IH; [reflexivity | simpl in *; lia | assumption].
Qed.

Lemma filter_kept_group3 (l : list ascii) :
  Forall (fun c => is_digit c = true) l -> filter kept (group3 l) = l.
Proof.
  intros Hl. unfold group3. rewrite filter_rev.
  rewrite (filter_kept_group3_rev (List.length (rev l))); [apply rev_involutive | lia |].
  apply Forall_rev. exact Hl.
Qed.

Lemma strip_string_of_list (l : list ascii) :
  strip (string_of_list_ascii l) = string_of_list_ascii (filter kept l).
Proof.
  rewrite <- (string_of_list_ascii_of_string (strip (string_of_list_ascii l))).
  now rewrite strip_filter, list_ascii_of_string_of_list_ascii.
Qed.

(** What [strip] leaves of a formatted amount: the sign and the digits. *)
Lemma strip_formatCurrency (amount : Q) :
  strip (formatCurrency amount) =
  string_of_list_ascii
    ((if Qltb amount 0 then ["-"%char] else []) ++
     decimal (Z.abs_N (Math_round amount)))%list.
Proof.
  unfold formatCurrency. cbv zeta. rewrite strip_string_of_list, filter_app.
  cbn [filter]. change (kept "$") with false. cbv iota.
  rewrite filter_kept_group3 by apply decimal_digits.
  destruct (Qltb amount 0); reflexivity.
Qed.

Lemma read_sign_digits (d : Decimal.uint) :
  read_sign (string_of_list_ascii (uint_chars d)) =
  (false, string_of_list_ascii (uint_chars d)).
Proof. destruct d; reflexivity. Qed.

Lemma parseFloat_decimal (negative : bool) (d : Decimal.uint) :
  d <> Decimal.Nil ->
  parseFloat (string_of_list_ascii
                ((if negative then ["-"%char] else []) ++ uint_chars d)%list) =
  Some (if negative then - inject_Z (digits_value (uint_vals d))
        else inject_Z (digits_value (uint_vals d))).
Proof.
  intros Hd. unfold parseFloat.
  assert (Hsign : read_sign (string_of_list_ascii
                    ((if negative then ["-"%char] else []) ++ uint_chars d)%list) =
                  (negative, string_of_list_ascii (uint_chars d))).
  { destruct negative; [reflexivity | apply read_sign_digits]. }
  rewrite Hsign, span_digits_uint. cbn [read_fraction].
  destruct (uint_vals d) as [| v vs] eqn:Hv; [destruct d; discriminate || congruence |].
  cbn [List.length Z.of_nat Z.pow Z.to_pos]. rewrite app_nil_r. reflexivity.
Qed.

Lemma Math_round_bounds (x : Q) :
  inject_Z (Math_round x) <= x + 0.5 /\ x + 0.5 < inject_Z (Math_round x) + 1.
Proof.
  unfold Math_round. split; [apply Qfloor_le |].
  pose proof (Qlt_floor (x + 0.5)) as H. rewrite inject_Z_plus in H. exact H.
Qed.

Lemma Math_round_sign (x : Q) :
  (x < 0 -> (Math_round x <= 0)%Z) /\ (0 <= x -> (0 <= Math_round x)%Z).
Proof.
  destruct (Math_round_bounds x) as [Hlo Hhi]. split; intros Hx.
  - apply Z.lt_succ_r. change (Z.succ 0) with 1%Z. rewrite Zlt_Qlt.
    change (inject_Z 1) with 1. lra.
  - apply Z.lt_pred_le. change (Z.pred 0) with (-1)%Z. rewrite Zlt_Qlt.
    change (inject_Z (-1)) with (-1). lra.
Qed.

Lemma parse_format (amount : Q) :
  parseCurrency (formatCurrency amount) = inject_Z (Math_round amount).
Proof.
  unfold parseCurrency. rewrite strip_formatCurrency. unfold decimal.
  rewrite (parseFloat_decimal _ _ (to_uint_nonnil _)).
  rewrite <- of_uint_value, DecimalN.Unsigned.of_to, N2Z.inj_abs_N.
  destruct (Math_round_sign amount) as [Hneg Hpos].
  destruct (Qltb amount 0) eqn:Hlt.
  - apply Qltb_lt in Hlt. specialize (Hneg Hlt).
    unfold Qopp, inject_Z. cbn [Qnum Qden]. f_equal. lia.
  - apply Qltb_ge in Hlt. specialize (Hpos Hlt).
    unfold inject_Z. f_equal. lia.
Qed.

(** X17.  Formatting and parsing back.  Parsing what [formatCurrency]
    writes gives the amount rounded to whole dollars, for every amount,
    negative ones included: the dollar sign and the thousands
    separators are removed and the sign is kept. *)
Theorem parseCurrency_formatCurrency (amount : Q) :
  parseCurrency (formatCurrency amount) = inject_Z (Math_round amount).
Proof. exact (parse_format amount). Qed.

(** X18.  The payment schedule of the summary document.  It has one
    row for each of the four quarters, each printing the quarterly
    payment; the four quarterly payments add up to the required annual
    payment exactly; and the four printed whole-dollar amounts, read
    back, add up to within 2 dollars of the printed annual total. *)
Theorem schedule_adds_up (inputs : TaxInputs) :
  let r := calculateTaxes inputs in
  map fst (schedule r) = QUARTERS /\
  Forall (fun row => snd row = formatCurrency (quarterlyPayment r)) (schedule r) /\
  fold_right Qplus 0 (map (fun _ => quarterlyPayment r) QUARTERS) ==
    requiredAnnualPayment r /\
  let printed :=
    fold_right Qplus 0 (map (fun row => parseCurrency (snd row)) (schedule r)) in
  let total := parseCurrency (formatCurrency (requiredAnnualPayment r)) in
  -2 <= printed - total /\ printed - total <= 2.
Proof.
  intros r.
  destruct (calculateTaxes_fields inputs)
    as (_ & _ & _ & _ & _ & _ & _ & Hq & _). fold r in Hq.
  assert (Hq4 : quarterlyPayment r * 4 == requiredAnnualPayment r).
  { rewrite Hq, Qmult_comm. apply Qmult_div_r. discriminate. }
  clearbody r. unfold schedule, QUARTERS. cbn [map fst snd fold_right].
  split; [reflexivity |]. split; [repeat constructor |]. split; [lra |].
  rewrite !parse_format.
  destruct (Math_round_bounds (quarterlyPayment r)) as [Hq1 Hq2].
  destruct (Math_round_bounds (requiredAnnualPayment r)) as [Ha1 Ha2].
  set (q := Math_round (quarterlyPayment r)) in *.
  set (a := Math_round (requiredAnnualPayment r)) in *.
  assert (Hz : (-3 < 4 * q - a < 3)%Z).
  { rewrite !Zlt_Qlt. unfold Z.sub.
    rewrite inject_Z_plus, inject_Z_opp, inject_Z_mult.
    change (inject_Z 4) with 4. change (inject_Z (-3)) with (-3).
    change (inject_Z 3) with 3. split; lra. }
  assert (Hz' : (-2 <= 4 * q - a <= 2)%Z) by lia.
  rewrite !Zle_Qle in Hz'. unfold Z.sub in Hz'.
  rewrite inject_Z_plus, inject_Z_opp, inject_Z_mult in Hz'.
  change (inject_Z 4) with 4 in Hz'. change (inject_Z (-2)) with (-2) in Hz'.
  change (inject_Z 2) with 2 in Hz'. split; lra.
Qed.

(** ** More profit, more to pay *)

(** The deduction grows more slowly than the profit. *)
Lemma se_deduction_slope (s : FilingStatus) (a b : Q) :
  a <= b ->
  seTaxDeduction (calculateSelfEmploymentTax b s) -
  seTaxDeduction (calculateSelfEmploymentTax a s) <= b - a.
Proof.
  intros Hab. simpl.
  unfold TAX_CONSTANTS_2025.socialSecurityRate, TAX_CONSTANTS_2025.medicareRate,
    TAX_CONSTANTS_2025.additionalMedicareRate,
    TAX_CONSTANTS_2025.socialSecurityWageBase,
    TAX_CONSTANTS_2025.seTaxDeductionRate.
  assert (Ha : seTaxableEarnings a == a * 0.9235) by reflexivity.
  assert (Hb : seTaxableEarnings b == b * 0.9235) by reflexivity.
  set (ea := seTaxableEarnings a) in *. set (eb := seTaxableEarnings b) in *.
  set (th := TAX_CONSTANTS_2025.additionalMedicareThreshold s).
  destruct (Q.min_spec ea 176100) as [[? Hmina] | [? Hmina]];
  destruct (Q.min_spec eb 176100) as [[? Hminb] | [? Hminb]];
  destruct (Q.max_spec 0 (ea - th)) as [[? Hmaxa] | [? Hmaxa]];
  destruct (Q.max_spec 0 (eb - th)) as [[? Hmaxb] | [? Hmaxb]];
    rewrite Hmina, Hminb, Hmaxa, Hmaxb; lra.
Qed.

Lemma current_year_tax_mono (s : FilingStatus) (tax1 agi1 tax2 agi2 a b : Q) :
  a <= b ->
  currentYearTotalTax (calculateTaxes (mkTaxInputs s tax1 agi1 a)) <=
  currentYearTotalTax (calculateTaxes (mkTaxInputs s tax2 agi2 b)).
Proof.
  intros Hab.
  set (r1 := calculateTaxes (mkTaxInputs s tax1 agi1 a)).
  set (r2 := calculateTaxes (mkTaxInputs s tax2 agi2 b)).
  destruct (calculateTaxes_fields (mkTaxInputs s tax1 agi1 a))
    as (Hse1 & Hit1 & Hti1 & Htot1 & _).
  destruct (calculateTaxes_fields (mkTaxInputs s tax2 agi2 b))
    as (Hse2 & Hit2 & Hti2 & Htot2 & _).
  fold r1 in Hse1, Hit1, Hti1, Htot1. fold r2 in Hse2, Hit2, Hti2, Htot2.
  cbn [currentYearProfit filingStatus] in *.
  destruct (se_components_mono s a b Hab) as (Hss & Hm & Ha).
  pose proof (se_deduction_slope s a b Hab) as Hslope.
  rewrite <- Hse1, <- Hse2 in Hslope.
  assert (Htotal : totalSETax (selfEmploymentTax r1) <= totalSETax (selfEmploymentTax r2)).
  { rewrite Hse1, Hse2.
    change (totalSETax (calculateSelfEmploymentTax a s))
      with (socialSecurityTax (calculateSelfEmploymentTax a s) +
            medicareTax (calculateSelfEmploymentTax a s) +
            additionalMedicareTax (calculateSelfEmploymentTax a s)).
    change (totalSETax (calculateSelfEmploymentTax b s))
      with (socialSecurityTax (calculateSelfEmploymentTax b s) +
            medicareTax (calculateSelfEmploymentTax b s) +
            additionalMedicareTax (calculateSelfEmploymentTax b s)).
    lra. }
  assert (Hti : taxableIncome (incomeTax r1) <= taxableIncome (incomeTax r2)).
  { rewrite Hti1, Hti2. apply Q.max_le_compat_l. lra. }
  assert (Htax : federalIncomeTax (incomeTax r1) <= federalIncomeTax (incomeTax r2)).
  { revert Hti. rewrite Hit1, Hit2. intros Hti.
    destruct (calculateIncomeTax_entries a (seTaxDeduction (selfEmploymentTax r1)) s)
      as [Hd1 Ht1].
    destruct (calculateIncomeTax_entries b (seTaxDeduction (selfEmploymentTax r2)) s)
      as [Hd2 Ht2].
    rewrite Ht1, Ht2, Hd1, Hd2.
    apply entries_tax_mono; [apply brackets_ok | exact Hti]. }
  rewrite Htot1, Htot2. lra.
Qed.

(** X19.  Larger inputs never lower the required payment: for one
    filing status, if the prior-year tax (non-negative), the prior-year
    AGI and the current-year profit each stay or grow, then the Safe
    Harbor minimum, the current-year minimum, the required annual
    payment and the quarterly payment each stay or grow. *)
Theorem required_payment_monotone (s : FilingStatus) (tax1 agi1 profit1 tax2 agi2 profit2 : Q) :
  0 <= tax1 -> tax1 <= tax2 -> agi1 <= agi2 -> profit1 <= profit2 ->
  let r1 := calculateTaxes (mkTaxInputs s tax1 agi1 profit1) in
  let r2 := calculateTaxes (mkTaxInputs s tax2 agi2 profit2) in
  safeHarborMinimum r1 <= safeHarborMinimum r2 /\
  currentYearAvoidanceMinimum r1 <= currentYearAvoidanceMinimum r2 /\
  requiredAnnualPayment r1 <= requiredAnnualPayment r2 /\
  quarterlyPayment r1 <= quarterlyPayment r2.
Proof.
  intros Ht0 Ht Hagi Hp r1 r2.
  pose proof (current_year_tax_mono s tax1 agi1 tax2 agi2 _ _ Hp) as Htot.
  fold r1 r2 in Htot.
  destruct (calculateTaxes_fields (mkTaxInputs s tax1 agi1 profit1))
    as (_ & _ & _ & _ & Hav1 & Hsh1 & Hreq1 & Hq1 & _).
  destruct (calculateTaxes_fields (mkTaxInputs s tax2 agi2 profit2))
    as (_ & _ & _ & _ & Hav2 & Hsh2 & Hreq2 & Hq2 & _).
  fold r1 in Hav1, Hsh1, Hreq1, Hq1. fold r2 in Hav2, Hsh2, Hreq2, Hq2.
  cbn [priorYearTax] in *.
  assert (Hsh : safeHarborMinimum r1 <= safeHarborMinimum r2).
  { rewrite Hsh1, Hsh2.
    destruct (safeHarborMultiplier_cases (mkTaxInputs s tax1 agi1 profit1))
      as [[Ha1 Hm1] | [Ha1 Hm1]];
    destruct (safeHarborMultiplier_cases (mkTaxInputs s tax2 agi2 profit2))
      as [[Ha2 Hm2] | [Ha2 Hm2]];
      fold r1 in Hm1; fold r2 in Hm2; cbn [priorYearAGI] in *;
      rewrite Hm1, Hm2; lra. }
  assert (Hav : currentYearAvoidanceMinimum r1 <= currentYearAvoidanceMinimum r2)
    by (rewrite Hav1, Hav2; lra).
  assert (Hreq : requiredAnnualPayment r1 <= requiredAnnualPayment r2).
  { rewrite Hreq1, Hreq2.
    destruct (Q.min_spec (safeHarborMinimum r1) (currentYearAvoidanceMinimum r1))
      as [[? Hm1] | [? Hm1]];
    destruct (Q.min_spec (safeHarborMinimum r2) (currentYearAvoidanceMinimum r2))
      as [[? Hm2] | [? Hm2]]; rewrite Hm1, Hm2; lra. }
  assert (H41 : quarterlyPayment r1 * 4 == requiredAnnualPayment r1).
  { rewrite Hq1, Qmult_comm. apply Qmult_div_r. discriminate. }
  assert (H42 : quarterlyPayment r2 * 4 == requiredAnnualPayment r2).
  { rewrite Hq2, Qmult_comm. apply Qmult_div_r. discriminate. }
  repeat split; try assumption. lra.
Qed.

Lemma required_payment_monotone_witness :
  0 <= 20000 /\ 20000 <= 25000 /\ 140000 <= 160000 /\ 90000 <= 200000 /\
  requiredAnnualPayment (calculateTaxes (mkTaxInputs single 20000 140000 90000)) <=
  requiredAnnualPayment (calculateTaxes (mkTaxInputs single 25000 160000 200000)).
Proof.
  repeat (split; [vm_compute; discriminate |]).
  apply (required_payment_monotone single 20000 140000 90000 25000 160000 200000);
    vm_compute; discriminate.
Defined.

(** X20.  With no prior-year tax nothing is required: if the prior-year
    tax is 0 and the profit is not negative, the Safe Harbor minimum,
    the required annual payment and the quarterly payment are 0, Safe
    Harbor is the recommended method, the savings are the whole
    current-year minimum, and the penalty comparison is not shown. *)
Theorem no_prior_tax_nothing_required (inputs : TaxInputs) :
  priorYearTax inputs == 0 -> 0 <= currentYearProfit inputs ->
  let r := calculateTaxes inputs in
  safeHarborMinimum r == 0 /\
  requiredAnnualPayment r == 0 /\
  quarterlyPayment r == 0 /\
  isCurrentYearLower r = false /\
  savings r == currentYearAvoidanceMinimum r /\
  PenaltySavingsComparison r (priorYearTax inputs) = None.
Proof.
  intros Hpt Hp r.
  destruct (calculateTaxes_fields inputs)
    as (_ & _ & _ & _ & Hav & Hsh & Hreq & Hq & Hlow & Hsav).
  fold r in Hav, Hsh, Hreq, Hq, Hlow, Hsav.
  destruct (current_year_tax_bounds inputs Hp) as (_ & Htot & _). fold r in Htot.
  assert (Hav0 : 0 <= currentYearAvoidanceMinimum r) by (rewrite Hav; lra).
  assert (Hsh0 : safeHarborMinimum r == 0) by (rewrite Hsh, Hpt; lra).
  assert (Hreq0 : requiredAnnualPayment r == 0).
  { rewrite Hreq.
    destruct (Q.min_spec (safeHarborMinimum r) (currentYearAvoidanceMinimum r))
      as [[? Hm] | [? Hm]]; rewrite Hm; lra. }
  assert (Hq4 : quarterlyPayment r * 4 == requiredAnnualPayment r).
  { rewrite Hq, Qmult_comm. apply Qmult_div_r. discriminate. }
  repeat split; try assumption.
  - lra.
  - rewrite Hlow. apply Qltb_ge. lra.
  - rewrite Hsav, Qabs_neg by lra. lra.
  - unfold PenaltySavingsComparison. cbv zeta.
    apply Qeq_bool_iff in Hpt. now rewrite Hpt.
Qed.

Lemma no_prior_tax_nothing_required_witness :
  let inputs := mkTaxInputs married 0 80000 120000 in
  priorYearTax inputs == 0 /\ 0 <= currentYearProfit inputs /\
  requiredAnnualPayment (calculateTaxes inputs) == 0.
Proof.
  cbv zeta. split; [reflexivity |]. split; [vm_compute; discriminate |].
  apply (no_prior_tax_nothing_required (mkTaxInputs married 0 80000 120000));
    [reflexivity | vm_compute; discriminate].
Defined.

(** ** Strings with nothing to read *)

Lemma strip_no_digit (value : string) :
  (forall c : ascii, In c (list_ascii_of_string value) -> is_digit c = false) ->
  forall c : ascii, In c (list_ascii_of_string (strip value)) -> is_digit c = false.
Proof.
  intros H c Hin. rewrite strip_filter in Hin.
  apply filter_In in Hin. apply H. tauto.
Qed.

Lemma starts_number_no_digit (s : string) :
  (forall c : ascii, In c (list_ascii_of_string s) -> is_digit c = false) ->
  starts_number s = false.
Proof.
  intros H. unfold starts_number.
  assert (Hbody : forall c : ascii,
            In c (list_ascii_of_string (snd (read_sign s))) -> is_digit c = false).
  { intros c Hin. apply H. destruct s as [| a rest]; [exact Hin |].
    simpl in Hin. destruct (Ascii.eqb a "-"); simpl in Hin; simpl; tauto. }
  destruct (snd (read_sign s)) as [| c rest]; [reflexivity |].
  rewrite (Hbody c) by (simpl; tauto). simpl.
  destruct (Ascii.eqb c "."); [| reflexivity]. simpl.
  destruct rest as [| d rest']; [reflexivity |].
  apply Hbody. simpl. tauto.
Qed.

(** X21.  A string without a digit parses to 0, whatever else it
    holds: signs, points, letters, currency symbols or nothing. *)
Theorem parseCurrency_without_digits (value : string) :
  (forall c : ascii, In c (list_ascii_of_string value) -> is_digit c = false) ->
  parseCurrency value = 0.
Proof.
  intros H. unfold parseCurrency.
  pose proof (starts_number_no_digit _ (strip_no_digit value H)) as Hs.
  apply parseFloat_None in Hs. now rewrite Hs.
Qed.

Lemma parseCurrency_without_digits_witness :
  parseCurrency "-$.- n/a" = 0.
Proof.
  apply parseCurrency_without_digits.
  intros c Hin. simpl in Hin.
  repeat (destruct Hin as [<- | Hin]; [reflexivity |]). contradiction.
Defined.

(** ** Where rounding decides *)

(** C5, as first stated, on the code's own numbers: the single filer
    with a net profit of 9046282048391080 and no deduction reaches the
    taxable income 9046282048375330, and the amounts [taxableAtRate] of
    the details returned add up to 9046282048375332. *)
Lemma bracket_details_account_binary64 :
  let r := Binary64.calculateIncomeTax Binary64.large_profit PrimFloat.zero single in
  Binary64.taxableIncome r = Binary64.large_taxableIncome /\
  PrimFloat.leb PrimFloat.zero (Binary64.taxableIncome r) = true /\
  Binary64.sum_taxableAtRate (Binary64.bracketDetails r) = Binary64.large_sum /\
  PrimFloat.eqb (Binary64.sum_taxableAtRate (Binary64.bracketDetails r))
    (Binary64.taxableIncome r) = false.
Proof. vm_compute. repeat split. Qed.

(** ** What the amount boxes hold *)

Lemma decimal_all_digits (n : N) :
  all_digits (string_of_list_ascii (decimal n)) = true.
Proof.
  pose proof (decimal_digits n) as H.
  induction H as [| c l Hc _ IH]; simpl; [reflexivity |].
  now rewrite Hc.
Qed.

Lemma decimal_nonempty (n : N) :
  string_of_list_ascii (decimal n) <> EmptyString.
Proof.
  unfold decimal. pose proof (to_uint_nonnil n) as H.
  destruct (N.to_uint n); [congruence | ..]; discriminate.
Qed.

Lemma parseInt_decimal (n : N) :
  parseInt (string_of_list_ascii (decimal n)) = Some (1 * Z.of_N n)%Z.
Proof.
  rewrite (parseInt_all_digits _ (decimal_all_digits n)).
  unfold decimal. rewrite span_digits_uint. cbv [fst].
  rewrite <- (DecimalN.Unsigned.of_to n) at 2. rewrite of_uint_value.
  pose proof (to_uint_nonnil n) as H.
  destruct (N.to_uint n); [congruence | ..]; reflexivity.
Qed.

(** Leaving a box that holds digits keeps digits in it, keeps it empty
    or not, and keeps the number [parseInt] reads. *)
Lemma handleBlur_digits (value : string) :
  all_digits value = true ->
  all_digits (handleBlur value) = true /\
  truthy (handleBlur value) = truthy value /\
  or_zero (parseInt (handleBlur value)) = or_zero (parseInt value).
Proof.
  intros Hall. unfold handleBlur.
  destruct value as [| c rest] eqn:Hv; [repeat split; reflexivity |].
  rewrite <- Hv in *. cbn [truthy].
  assert (Hne : value <> EmptyString) by (rewrite Hv; discriminate).
  replace (truthy value) with true by (rewrite Hv; reflexivity).
  rewrite (parseInt_all_digits _ Hall).
  destruct (span_digits_all _ Hall) as [_ Hds]. specialize (Hds Hne).
  pose proof (digits_value_nonneg _ (span_digits_nonneg value)) as Hnn.
  revert Hds Hnn. destruct (fst (span_digits value)) as [| d ds]; [congruence |].
  intros _ Hnn. set (v := digits_value (d :: ds)) in *.
  unfold Number_toString.
  replace (1 * v <? 0)%Z with false by (symmetry; apply Z.ltb_ge; lia).
  cbn [app]. repeat split.
  - apply decimal_all_digits.
  - destruct (string_of_list_ascii (decimal (Z.abs_N (1 * v)))) eqn:E;
      [now apply decimal_nonempty in E | reflexivity].
  - rewrite parseInt_decimal. cbn [or_zero]. rewrite N2Z.inj_abs_N. lia.
Qed.

Lemma stored_digits (value : string) :
  stored value ->
  all_digits value = true /\ (or_zero (parseInt value) < MAX_EXACT)%Z.
Proof.
  induction 1 as [text Hlt | value _ [IHd IHv]].
  - split; [apply handleChange_all_digits | exact Hlt].
  - destruct (handleBlur_digits value IHd) as (Hd & _ & Hv).
    split; [exact Hd | now rewrite Hv].
Qed.

Lemma TaxCalculator_result_ext (s : FilingStatus) (t1 a1 p1 t2 a2 p2 : string) :
  truthy t1 = truthy t2 -> truthy a1 = truthy a2 -> truthy p1 = truthy p2 ->
  or_zero (parseInt t1) = or_zero (parseInt t2) ->
  or_zero (parseInt a1) = or_zero (parseInt a2) ->
  or_zero (parseInt p1) = or_zero (parseInt p2) ->
  TaxCalculator_result s t1 a1 p1 = TaxCalculator_result s t2 a2 p2.
Proof.
  intros Ht Ha Hp Vt Va Vp. unfold TaxCalculator_result.
  now rewrite Ht, Ha, Hp, Vt, Va, Vp.
Qed.

(** X12.  What the page computes from what the boxes hold.  An amount
    box holds the digits of what was typed, rewritten on leaving the
    box; take amounts below 2^53.  Then each box holds digits only, of
    a number below 2^53; leaving the boxes does not change the result;
    the page has no result exactly when one of the three strings is
    empty; and otherwise the result is [calculateTaxes] on the three
    non-negative whole numbers the digits write, so that the required
    annual payment and the quarterly payment are never negative. *)
Theorem page_result_of_typed_text (s : FilingStatus) (tax agi profit : string) :
  stored tax -> stored agi -> stored profit ->
  (all_digits tax = true /\ all_digits agi = true /\ all_digits profit = true) /\
  TaxCalculator_result s (handleBlur tax) (handleBlur agi) (handleBlur profit) =
    TaxCalculator_result s tax agi profit /\
  match TaxCalculator_result s tax agi profit with
  | None => tax = EmptyString \/ agi = EmptyString \/ profit = EmptyString
  | Some r =>
    tax <> EmptyString /\ agi <> EmptyString /\ profit <> EmptyString /\
    r = calculateTaxes
          {| filingStatus := s;
             priorYearTax := inject_Z (digits_value (fst (span_digits tax)));
             priorYearAGI := inject_Z (digits_value (fst (span_digits agi)));
             currentYearProfit := inject_Z (digits_value (fst (span_digits profit))) |} /\
    (0 <= digits_value (fst (span_digits tax)) < MAX_EXACT)%Z /\
    (0 <= digits_value (fst (span_digits agi)) < MAX_EXACT)%Z /\
    (0 <= digits_value (fst (span_digits profit)) < MAX_EXACT)%Z /\
    0 <= requiredAnnualPayment r /\ 0 <= quarterlyPayment r
  end.
Proof.
  intros Stax Sagi Sprofit.
  destruct (stored_digits _ Stax) as [Dt Bt].
  destruct (stored_digits _ Sagi) as [Da Ba].
  destruct (stored_digits _ Sprofit) as [Dp Bp].
  split; [repeat split; assumption |]. split.
  { destruct (handleBlur_digits _ Dt) as (_ & T1 & V1).
    destruct (handleBlur_digits _ Da) as (_ & T2 & V2).
    destruct (handleBlur_digits _ Dp) as (_ & T3 & V3).
    now apply TaxCalculator_result_ext. }
  assert (Hval : forall value : string,
            all_digits value = true -> value <> EmptyString ->
            or_zero (parseInt value) = digits_value (fst (span_digits value)) /\
            (0 <= digits_value (fst (span_digits value)))%Z).
  { intros value Hall Hne.
    rewrite (parseInt_all_digits _ Hall).
    destruct (span_digits_all _ Hall) as [_ Hds]. specialize (Hds Hne).
    pose proof (digits_value_nonneg _ (span_digits_nonneg value)) as Hv.
    revert Hds Hv.
    destruct (fst (span_digits value)) as [| d ds]; [congruence |].
    intros _ Hv. split; [cbn [or_zero]; lia | exact Hv]. }
  unfold TaxCalculator_result.
  destruct tax as [| c1 t1] eqn:Htax; [simpl; auto |].
  destruct agi as [| c2 t2] eqn:Hagi; [simpl; auto |].
  destruct profit as [| c3 t3] eqn:Hprofit; [simpl; auto |].
  cbn [truthy andb negb]. rewrite <- Htax, <- Hagi, <- Hprofit in *.
  assert (H1 : tax <> EmptyString) by (rewrite Htax; discriminate).
  assert (H2 : agi <> EmptyString) by (rewrite Hagi; discriminate).
  assert (H3 : profit <> EmptyString) by (rewrite Hprofit; discriminate).
  destruct (Hval tax Dt H1) as [E1 N1].
  destruct (Hval agi Da H2) as [E2 N2].
  destruct (Hval profit Dp H3) as [E3 N3].
  rewrite E1 in Bt. rewrite E2 in Ba. rewrite E3 in Bp.
  rewrite E1, E2, E3.
  repeat split; try assumption;
    apply payments_bounds; cbn [priorYearTax currentYearProfit];
    now apply inject_Z_nonneg.
Qed.

Lemma page_result_of_typed_text_witness :
  stored "0025000" /\ stored "140000" /\ stored "200000" /\
  TaxCalculator_result single
    (handleBlur "0025000") (handleBlur "140000") (handleBlur "200000") =
  TaxCalculator_result single "0025000" "140000" "200000".
Proof.
  assert (S1 : stored "0025000")
    by (apply (stored_change "$00,25000"); reflexivity).
  assert (S2 : stored "140000")
    by (apply (stored_change "140,000"); reflexivity).
  assert (S3 : stored "200000")
    by (apply (stored_change "200000 USD"); reflexivity).
  repeat (split; [assumption |]).
  apply (page_result_of_typed_text single _ _ _ S1 S2 S3).
Defined.
